(** * ldapReader: a paged LDAP search reader

    A shallow embedding of the class [ldapReader] of [ldapReader.h] and of the
    part of the OpenLDAP client library it calls, followed by the properties
    of binding, querying, fetching and attribute access.

    The object is a record with one field per data member.  A member function
    is a function from the object to an [outcome]: a normal return with the
    new object, a thrown [ldapException] with the object as the throw left it,
    or undefined behaviour of the C++ program.  The library is a parameter
    [LdapLibrary]: what the server and the library answer is not fixed by the
    class, so every theorem holds for every library, and the examples run
    against small scripted directories. *)

From Stdlib Require Import List String Ascii Bool ZArith NArith Lia.
From Stdlib.Strings Require Import Byte.
Import ListNotations.

Local Open Scope string_scope.
Local Open Scope list_scope.
Local Open Scope Z_scope.

(** ** Constants of [ldap.h] and of the header *)

Module Const.
Definition LDAP_SUCCESS : Z := 0.
Definition LDAP_DECODING_ERROR : Z := -4.
Definition LDAP_PARAM_ERROR : Z := -9.
Definition LDAP_VERSION3 : Z := 3.
Definition LDAP_SCOPE_SUBTREE : Z := 2.
Definition LDAP_NO_LIMIT : Z := 0.
Definition LDAP_CONTROL_PAGEDRESULTS : string := "1.2.840.113556.1.4.319".

Definition _DEFAULT_LDAP_VERSION : Z := LDAP_VERSION3.
Definition _DEFAULT_PAGE_SIZE : Z := 1000.
Definition _DEFAULT_PAGING_CRITICAL : ascii := "T"%char.
Definition _DEFAULT_MAX_NUMBER_OF_ATTRIBUTES : N := 50.
End Const.
Import Const.

(** ** Data of the library

    The library is modelled by what its manual says of the functions the
    class calls: a search yields a chain of entries and the controls of the
    response; the parsing functions read them; [ldap_create_page_control]
    encodes page size and cookie.  Return codes that depend on the server or
    on resources are left to [LdapLibrary] below.  The releases that [query]
    and [clearBerval] perform are recorded; which blocks a release leaves
    behind, and which calls then read them, is the matter of [Storage] and
    of the checked calls further down. *)

(** [struct berval]: a length and a buffer.  The buffer holds the bytes the
    library or the class stored; both always store a terminating NUL after
    them, which the list leaves out. *)
Record berval : Type := mkBerval {
  bv_len : N;
  bv_val : option (list byte)
}.

(** The berval the library allocates for an octet string. *)
Definition berval_of_bytes (s : list byte) : berval :=
  mkBerval (N.of_nat (List.length s)) (Some s).

(** The octets a berval denotes: the first [bv_len] bytes of its buffer. *)
Definition berval_bytes (b : berval) : list byte :=
  match bv_val b with
  | Some s => firstn (N.to_nat (bv_len b)) s
  | None => []
  end.

(** C's [strlen] on a buffer that is followed by a NUL: the number of bytes
    before the first NUL. *)
Fixpoint strlen (s : list byte) : nat :=
  match s with
  | [] => O
  | b :: s' => if Byte.eqb b x00 then O else S (strlen s')
  end.

(** [LDAPControl].  The value of a paged-results control is the BER sequence
    of an integer (page size in a request, estimated count in a response) and
    the cookie; [None] is a value that does not decode as one. *)
Record LDAPControl : Type := mkControl {
  ldctl_oid : string;
  ldctl_value : option (Z * list byte);
  ldctl_iscritical : ascii
}.

(** One directory entry of a search result: its attributes in server order,
    each with its values in server order. *)
Record Entry : Type := mkEntry {
  entry_dn : string;
  entry_attrs : list (string * list berval)
}.

(** [LDAPMessage*] as [ldap_search_ext_s] hands it out: the chain of entries,
    what [ldap_parse_result] answers on it, and the controls of the response
    (the array, or NULL when the response has none). *)
Record LDAPMessage : Type := mkMessage {
  msg_entries : list Entry;
  msg_parse_rc : Z;
  msg_controls : option (list LDAPControl)
}.

(** A pointer to an entry inside a chain: the entry and the ones after it.
    The pointer says where in the chain it points, not whether the block it
    points to is still allocated: that is kept apart, in [Storage] below. *)
Record EntryRef : Type := mkRef {
  ref_entry : Entry;
  ref_next : list Entry
}.

Definition ldap_first_entry (res : LDAPMessage) : option EntryRef :=
  match msg_entries res with
  | [] => None
  | e :: rest => Some (mkRef e rest)
  end.

Definition ldap_next_entry (cur : EntryRef) : option EntryRef :=
  match ref_next cur with
  | [] => None
  | e :: rest => Some (mkRef e rest)
  end.

(** Attribute descriptions compare without regard to case. *)
Definition lower (c : ascii) : ascii :=
  let n := nat_of_ascii c in
  if ((65 <=? n) && (n <=? 90))%nat then ascii_of_nat (n + 32) else c.

Fixpoint strcasecmp_eq (a b : string) : bool :=
  match a, b with
  | EmptyString, EmptyString => true
  | String x a', String y b' => Ascii.eqb (lower x) (lower y) && strcasecmp_eq a' b'
  | _, _ => false
  end.

(** [ldap_get_values_len]: the values of the first attribute of the entry
    with that name, or NULL when the entry has none. *)
Fixpoint ldap_get_values_len_in (attrs : list (string * list berval))
    (name : string) : option (list berval) :=
  match attrs with
  | [] => None
  | (a, vals) :: rest =>
      if strcasecmp_eq a name then Some vals
      else ldap_get_values_len_in rest name
  end.

Definition ldap_get_values_len (cur : EntryRef) (name : string)
    : option (list berval) :=
  ldap_get_values_len_in (entry_attrs (ref_entry cur)) name.

(** The values behind a [berval**]: none for NULL. *)
Definition values_of (p : option (list berval)) : list berval :=
  match p with
  | Some vals => vals
  | None => []
  end.

Definition ldap_parse_result (res : option LDAPMessage)
    : Z * option (list LDAPControl) :=
  match res with
  | None => (LDAP_PARAM_ERROR, None)
  | Some m => (msg_parse_rc m, msg_controls m)
  end.

(** [ldap_parse_pageresponse_control]: the return code and, on success, the
    count and the cookie it stores through its two out-pointers. *)
Definition ldap_parse_pageresponse_control (ctrl : option LDAPControl)
    : Z * option (Z * berval) :=
  match ctrl with
  | None => (LDAP_PARAM_ERROR, None)
  | Some c =>
      match ldctl_value c with
      | None => (LDAP_DECODING_ERROR, None)
      | Some (count, cookie) => (LDAP_SUCCESS, Some (count, berval_of_bytes cookie))
      end
  end.

(** The control [ldap_create_page_control] builds. *)
Definition page_control (pageSize : Z) (cookie : berval) (critical : ascii)
    : LDAPControl :=
  mkControl LDAP_CONTROL_PAGEDRESULTS (Some (pageSize, berval_bytes cookie)) critical.

(** What [ldap_search_ext_s] is called with. *)
Record SearchRequest : Type := mkRequest {
  rq_base : option string;
  rq_scope : Z;
  rq_filter : option string;
  rq_attrs : option (list string);
  rq_serverctrls : option (list LDAPControl);
  rq_sizelimit : Z
}.

(** The cookie a search request carries in its first control. *)
Definition request_cookie (rq : SearchRequest) : option (list byte) :=
  match rq_serverctrls rq with
  | Some (c :: _) => option_map snd (ldctl_value c)
  | _ => None
  end.

(** The calls on a connection that the properties speak about. *)
Inductive LibCall : Type :=
| call_sasl_bind (dn : option string) (cred : berval)
| call_search (rq : SearchRequest)
| call_memfree (res : LDAPMessage).

(** The part of the library that answers for the server.  Each function gets
    the calls made so far, so an answer may depend on the history. *)
Record LdapLibrary : Type := mkLibrary {
  ldap_initialize : option string -> Z;
  ldap_set_option : Z -> Z;
  ldap_sasl_bind_s : list LibCall -> option string -> berval -> Z;
  ldap_create_page_control : list LibCall -> Z -> berval -> ascii -> Z;
  ldap_search_ext_s : list LibCall -> SearchRequest -> Z * option LDAPMessage;
  ldap_err2string : Z -> string
}.

(** ** The object *)

Record ldapReader : Type := mkReader {
  connection : list LibCall;  (* the calls made on the handle, newest first *)
  uri : option string;
  version : Z;
  bindUser : option string;
  bindCred : berval;
  searchBase : option string;
  searchFilter : option string;
  requestedAttributes : option (list string);
  pageSize : Z;
  pageCookie : berval;
  pageControl : option LDAPControl;
  controls : option (list LDAPControl);
  result : option LDAPMessage;
  entry : option EntryRef;
  resultCount : Z;
  isPagingCritical : ascii;
  isInitialized : bool;
  isBinded : bool;
  isCredExist : bool;
  isMorePageAvailable : bool
}.

(** Field assignments [this->f = v]. *)
Definition set_connection (v : list LibCall) (st : ldapReader) : ldapReader :=
  mkReader v (uri st) (version st) (bindUser st) (bindCred st) (searchBase st)
    (searchFilter st) (requestedAttributes st) (pageSize st) (pageCookie st)
    (pageControl st) (controls st) (result st) (entry st) (resultCount st)
    (isPagingCritical st) (isInitialized st) (isBinded st) (isCredExist st)
    (isMorePageAvailable st).
Definition set_uri (v : option string) (st : ldapReader) : ldapReader :=
  mkReader (connection st) v (version st) (bindUser st) (bindCred st)
    (searchBase st) (searchFilter st) (requestedAttributes st) (pageSize st)
    (pageCookie st) (pageControl st) (controls st) (result st) (entry st)
    (resultCount st) (isPagingCritical st) (isInitialized st) (isBinded st)
    (isCredExist st) (isMorePageAvailable st).
Definition set_version (v : Z) (st : ldapReader) : ldapReader :=
  mkReader (connection st) (uri st) v (bindUser st) (bindCred st)
    (searchBase st) (searchFilter st) (requestedAttributes st) (pageSize st)
    (pageCookie st) (pageControl st) (controls st) (result st) (entry st)
    (resultCount st) (isPagingCritical st) (isInitialized st) (isBinded st)
    (isCredExist st) (isMorePageAvailable st).
Definition set_bindUser (v : option string) (st : ldapReader) : ldapReader :=
  mkReader (connection st) (uri st) (version st) v (bindCred st)
    (searchBase st) (searchFilter st) (requestedAttributes st) (pageSize st)
    (pageCookie st) (pageControl st) (controls st) (result st) (entry st)
    (resultCount st) (isPagingCritical st) (isInitialized st) (isBinded st)
    (isCredExist st) (isMorePageAvailable st).
Definition set_bindCred (v : berval) (st : ldapReader) : ldapReader :=
  mkReader (connection st) (uri st) (version st) (bindUser st) v
    (searchBase st) (searchFilter st) (requestedAttributes st) (pageSize st)
    (pageCookie st) (pageControl st) (controls st) (result st) (entry st)
    (resultCount st) (isPagingCritical st) (isInitialized st) (isBinded st)
    (isCredExist st) (isMorePageAvailable st).
Definition set_searchBase (v : option string) (st : ldapReader) : ldapReader :=
  mkReader (connection st) (uri st) (version st) (bindUser st) (bindCred st) v
    (searchFilter st) (requestedAttributes st) (pageSize st) (pageCookie st)
    (pageControl st) (controls st) (result st) (entry st) (resultCount st)
    (isPagingCritical st) (isInitialized st) (isBinded st) (isCredExist st)
    (isMorePageAvailable st).
Definition set_searchFilter (v : option string) (st : ldapReader) : ldapReader :=
  mkReader (connection st) (uri st) (version st) (bindUser st) (bindCred st)
    (searchBase st) v (requestedAttributes st) (pageSize st) (pageCookie st)
    (pageControl st) (controls st) (result st) (entry st) (resultCount st)
    (isPagingCritical st) (isInitialized st) (isBinded st) (isCredExist st)
    (isMorePageAvailable st).
Definition set_requestedAttributes (v : option (list string)) (st : ldapReader) : ldapReader :=
  mkReader (connection st) (uri st) (version st) (bindUser st) (bindCred st)
    (searchBase st) (searchFilter st) v (pageSize st) (pageCookie st)
    (pageControl st) (controls st) (result st) (entry st) (resultCount st)
    (isPagingCritical st) (isInitialized st) (isBinded st) (isCredExist st)
    (isMorePageAvailable st).
Definition set_pageSize (v : Z) (st : ldapReader) : ldapReader :=
  mkReader (connection st) (uri st) (version st) (bindUser st) (bindCred st)
    (searchBase st) (searchFilter st) (requestedAttributes st) v
    (pageCookie st) (pageControl st) (controls st) (result st) (entry st)
    (resultCount st) (isPagingCritical st) (isInitialized st) (isBinded st)
    (isCredExist st) (isMorePageAvailable st).
Definition set_pageCookie (v : berval) (st : ldapReader) : ldapReader :=
  mkReader (connection st) (uri st) (version st) (bindUser st) (bindCred st)
    (searchBase st) (searchFilter st) (requestedAttributes st) (pageSize st) v
    (pageControl st) (controls st) (result st) (entry st) (resultCount st)
    (isPagingCritical st) (isInitialized st) (isBinded st) (isCredExist st)
    (isMorePageAvailable st).
Definition set_pageControl (v : option LDAPControl) (st : ldapReader) : ldapReader :=
  mkReader (connection st) (uri st) (version st) (bindUser st) (bindCred st)
    (searchBase st) (searchFilter st) (requestedAttributes st) (pageSize st)
    (pageCookie st) v (controls st) (result st) (entry st) (resultCount st)
    (isPagingCritical st) (isInitialized st) (isBinded st) (isCredExist st)
    (isMorePageAvailable st).
Definition set_controls (v : option (list LDAPControl)) (st : ldapReader) : ldapReader :=
  mkReader (connection st) (uri st) (version st) (bindUser st) (bindCred st)
    (searchBase st) (searchFilter st) (requestedAttributes st) (pageSize st)
    (pageCookie st) (pageControl st) v (result st) (entry st) (resultCount st)
    (isPagingCritical st) (isInitialized st) (isBinded st) (isCredExist st)
    (isMorePageAvailable st).
Definition set_result (v : option LDAPMessage) (st : ldapReader) : ldapReader :=
  mkReader (connection st) (uri st) (version st) (bindUser st) (bindCred st)
    (searchBase st) (searchFilter st) (requestedAttributes st) (pageSize st)
    (pageCookie st) (pageControl st) (controls st) v (entry st)
    (resultCount st) (isPagingCritical st) (isInitialized st) (isBinded st)
    (isCredExist st) (isMorePageAvailable st).
Definition set_entry (v : option EntryRef) (st : ldapReader) : ldapReader :=
  mkReader (connection st) (uri st) (version st) (bindUser st) (bindCred st)
    (searchBase st) (searchFilter st) (requestedAttributes st) (pageSize st)
    (pageCookie st) (pageControl st) (controls st) (result st) v
    (resultCount st) (isPagingCritical st) (isInitialized st) (isBinded st)
    (isCredExist st) (isMorePageAvailable st).
Definition set_resultCount (v : Z) (st : ldapReader) : ldapReader :=
  mkReader (connection st) (uri st) (version st) (bindUser st) (bindCred st)
    (searchBase st) (searchFilter st) (requestedAttributes st) (pageSize st)
    (pageCookie st) (pageControl st) (controls st) (result st) (entry st) v
    (isPagingCritical st) (isInitialized st) (isBinded st) (isCredExist st)
    (isMorePageAvailable st).
Definition set_isPagingCritical (v : ascii) (st : ldapReader) : ldapReader :=
  mkReader (connection st) (uri st) (version st) (bindUser st) (bindCred st)
    (searchBase st) (searchFilter st) (requestedAttributes st) (pageSize st)
    (pageCookie st) (pageControl st) (controls st) (result st) (entry st)
    (resultCount st) v (isInitialized st) (isBinded st) (isCredExist st)
    (isMorePageAvailable st).
Definition set_isInitialized (v : bool) (st : ldapReader) : ldapReader :=
  mkReader (connection st) (uri st) (version st) (bindUser st) (bindCred st)
    (searchBase st) (searchFilter st) (requestedAttributes st) (pageSize st)
    (pageCookie st) (pageControl st) (controls st) (result st) (entry st)
    (resultCount st) (isPagingCritical st) v (isBinded st) (isCredExist st)
    (isMorePageAvailable st).
Definition set_isBinded (v : bool) (st : ldapReader) : ldapReader :=
  mkReader (connection st) (uri st) (version st) (bindUser st) (bindCred st)
    (searchBase st) (searchFilter st) (requestedAttributes st) (pageSize st)
    (pageCookie st) (pageControl st) (controls st) (result st) (entry st)
    (resultCount st) (isPagingCritical st) (isInitialized st) v
    (isCredExist st) (isMorePageAvailable st).
Definition set_isCredExist (v : bool) (st : ldapReader) : ldapReader :=
  mkReader (connection st) (uri st) (version st) (bindUser st) (bindCred st)
    (searchBase st) (searchFilter st) (requestedAttributes st) (pageSize st)
    (pageCookie st) (pageControl st) (controls st) (result st) (entry st)
    (resultCount st) (isPagingCritical st) (isInitialized st) (isBinded st) v
    (isMorePageAvailable st).
Definition set_isMorePageAvailable (v : bool) (st : ldapReader) : ldapReader :=
  mkReader (connection st) (uri st) (version st) (bindUser st) (bindCred st)
    (searchBase st) (searchFilter st) (requestedAttributes st) (pageSize st)
    (pageCookie st) (pageControl st) (controls st) (result st) (entry st)
    (resultCount st) (isPagingCritical st) (isInitialized st) (isBinded st)
    (isCredExist st) v.

(** ** Outcomes and member functions *)

(** How a call of a member function ends. *)
Inductive outcome (A : Type) : Type :=
| Ret (a : A) (st : ldapReader)          (* returned [a] *)
| Throw (what : string) (st : ldapReader) (* threw [ldapException(what)] *)
| Undefined.                              (* the C++ program has no defined behaviour *)
Arguments Ret {A} a st.
Arguments Throw {A} what st.
Arguments Undefined {A}.

Definition method (A : Type) : Type := ldapReader -> outcome A.

Definition ret {A : Type} (a : A) : method A := fun st => Ret a st.
Definition throw {A : Type} (what : string) : method A := fun st => Throw what st.
Definition undefined {A : Type} : method A := fun _ => Undefined.
Definition mbind {A B : Type} (m : method A) (k : A -> method B) : method B :=
  fun st =>
    match m st with
    | Ret a st' => k a st'
    | Throw what st' => Throw what st'
    | Undefined => Undefined
    end.
Definition this : method ldapReader := fun st => Ret st st.
Definition get {A : Type} (field : ldapReader -> A) : method A :=
  fun st => Ret (field st) st.
Definition assign (upd : ldapReader -> ldapReader) : method unit :=
  fun st => Ret tt (upd st).

Notation "x <- m ;; k" := (mbind m (fun x => k))
  (at level 61, m at next level, right associativity).
Notation "m ;; k" := (mbind m (fun _ => k))
  (at level 61, right associativity).

(** The object an outcome leaves behind. *)
Definition state_after {A : Type} (o : outcome A) : option ldapReader :=
  match o with
  | Ret _ st => Some st
  | Throw _ st => Some st
  | Undefined => None
  end.

(** A library call is recorded on the handle. *)
Definition record_call (c : LibCall) (st : ldapReader) : ldapReader :=
  set_connection (c :: connection st) st.

(** The search requests among the calls of a handle, newest first. *)
Fixpoint searches (calls : list LibCall) : list SearchRequest :=
  match calls with
  | [] => []
  | call_search rq :: rest => rq :: searches rest
  | _ :: rest => searches rest
  end.

(** A [const char*] argument is the string it points to; the copies the class
    makes with [new char[strlen+1]] and [memcpy] are that string again. *)

Section Reader.

Variable L : LdapLibrary.

Definition _start : method unit :=
  assign (set_isBinded false) ;;
  assign (set_isInitialized false) ;;
  assign (set_isCredExist false) ;;
  cred <- get bindCred ;;
  assign (set_bindCred (mkBerval 0 (bv_val cred))) ;;
  assign (set_bindCred (mkBerval 0 None)) ;;
  assign (set_version 0) ;;
  assign (set_searchBase None) ;;
  assign (set_searchFilter None) ;;
  assign (set_requestedAttributes None) ;;
  assign (set_pageSize _DEFAULT_PAGE_SIZE) ;;
  assign (set_isPagingCritical _DEFAULT_PAGING_CRITICAL) ;;
  assign (set_pageControl None) ;;
  assign (set_result None) ;;
  assign (set_isMorePageAvailable false) ;;
  assign (set_entry None) ;;
  assign (set_controls None) ;;
  assign (set_resultCount 0).

Definition _setUri (serverUri : string) : method unit :=
  assign (set_uri (Some serverUri)).

Definition _setCred (user pass : string) : method unit :=
  exist <- get isCredExist ;;
  (if exist
   then cred <- get bindCred ;; assign (set_bindCred (mkBerval 0 (bv_val cred)))
   else ret tt) ;;
  assign (set_bindUser (Some user)) ;;
  assign (set_bindCred
            (mkBerval (N.of_nat (String.length pass)) (Some (list_byte_of_string pass)))) ;;
  assign (set_isCredExist true).

Definition _initialize : method unit :=
  u <- get uri ;;
  let rc := ldap_initialize L u in
  assign (set_connection []) ;;
  if rc =? LDAP_SUCCESS
  then assign (set_isInitialized true)
  else throw (ldap_err2string L rc).

Definition _setVersion (v : Z) : method unit :=
  assign (set_version v) ;;
  let rc := ldap_set_option L v in
  if rc =? LDAP_SUCCESS then ret tt else throw (ldap_err2string L rc).

Definition _bind : method unit :=
  st <- this ;;
  let rc := ldap_sasl_bind_s L (connection st) (bindUser st) (bindCred st) in
  assign (record_call (call_sasl_bind (bindUser st) (bindCred st))) ;;
  if rc =? LDAP_SUCCESS
  then assign (set_isBinded true)
  else throw (ldap_err2string L rc).

Definition _preparePageControl : method unit :=
  pc <- get pageControl ;;
  (match pc with
   | Some _ => assign (set_pageControl None)
   | None => ret tt
   end) ;;
  st <- this ;;
  let rc := ldap_create_page_control L (connection st) (pageSize st)
              (pageCookie st) (isPagingCritical st) in
  if rc =? 0
  then assign (set_pageControl
                 (Some (page_control (pageSize st) (pageCookie st) (isPagingCritical st))))
  else throw (ldap_err2string L rc).

(** [controls] is the two-slot array: the page control, then NULL. *)
Definition _prepareControls : method unit :=
  cs <- get controls ;;
  (match cs with
   | None => assign (set_controls (Some []))
   | Some _ => ret tt
   end) ;;
  _preparePageControl ;;
  pc <- get pageControl ;;
  assign (set_controls (Some (match pc with Some c => [c] | None => [] end))).

Definition _query : method unit :=
  _prepareControls ;;
  st <- this ;;
  let rq := mkRequest (searchBase st) LDAP_SCOPE_SUBTREE (searchFilter st)
              (requestedAttributes st) (controls st) LDAP_NO_LIMIT in
  let (rc, res) := ldap_search_ext_s L (connection st) rq in
  assign (record_call (call_search rq)) ;;
  assign (set_result res) ;;
  if negb (rc =? LDAP_SUCCESS) then throw (ldap_err2string L rc) else
  r <- get result ;;
  let (rc, returnedControls) := ldap_parse_result r in
  if negb (rc =? LDAP_SUCCESS) then throw (ldap_err2string L rc) else
  match returnedControls with
  | None => undefined   (* [returnedControls[0]] through a null pointer *)
  | Some arr =>
      let (rc, out) := ldap_parse_pageresponse_control (hd_error arr) in
      (match out with
       | Some (count, cookie) =>
           assign (set_resultCount count) ;; assign (set_pageCookie cookie)
       | None => ret tt
       end) ;;
      if negb (rc =? LDAP_SUCCESS) then throw (ldap_err2string L rc) else
      cookie <- get pageCookie ;;
      match bv_val cookie with
      | Some s =>
          if (0 <? strlen s)%nat
          then assign (set_isMorePageAvailable true)
          else assign (set_isMorePageAvailable false)
      | None => assign (set_isMorePageAvailable false)
      end
  end.

(** *** Public member functions *)

(** [bind(bool rebind = false)] *)
Definition bind (rebind : bool) : method unit :=
  bound <- get isBinded ;;
  if bound && negb rebind then throw "Already binded" else
  exist <- get isCredExist ;;
  if negb exist then throw "Auth parameters doesn't exist" else
  _bind.

(** [bind(const char* bindUser, const char* bindPass, bool rebind = false)] *)
Definition bind_as (user pass : string) (rebind : bool) : method unit :=
  bound <- get isBinded ;;
  if bound && negb rebind then throw "Already binded" else
  _setCred user pass ;;
  _bind.

Definition setPageSize (ps : Z) : method unit :=
  assign (set_pageSize ps).

(** The loop over the variable arguments: [n] reads of [va_arg]; reading past
    the arguments the caller passed is undefined. *)
Fixpoint va_names (n : nat) (va : list string) : option (list string) :=
  match n with
  | O => Some []
  | S k =>
      match va with
      | [] => None
      | buf :: va' => option_map (cons buf) (va_names k va')
      end
  end.

(** [query(searchFilter, searchBase, attrNum, ...)] *)
Definition query (filter base : string) (attrNum : N) (va : list string)
    : method unit :=
  assign (set_searchFilter (Some filter)) ;;
  assign (set_searchBase (Some base)) ;;
  (if (0 <? attrNum)%N
   then
     if (_DEFAULT_MAX_NUMBER_OF_ATTRIBUTES <? attrNum)%N
     then throw "Too many attributes requested."
     else
       match va_names (N.to_nat attrNum) va with
       | Some names => assign (set_requestedAttributes (Some names))
       | None => undefined
       end
   else ret tt) ;;
  r <- get result ;;
  (match r with
   | Some old => assign (record_call (call_memfree old))
   | None => ret tt
   end) ;;
  _query.

(** [query(searchFilter, searchBase)] *)
Definition query_all (filter base : string) : method unit :=
  query filter base 0 [].

(** [fetch()].  It calls itself after fetching the next page; [fuel] bounds
    the depth of that recursion, and two levels are all it ever uses, as is
    proved below. *)
Fixpoint fetch_fuel (fuel : nat) : ldapReader -> option (outcome bool) :=
  fun st =>
  match fuel with
  | O => None
  | S fuel' =>
      match result st with
      | None => Some (Ret false st)
      | Some res =>
          match entry st with
          | None =>
              let st1 := set_entry (ldap_first_entry res) st in
              match entry st1 with
              | Some _ => Some (Ret true st1)
              | None => Some (Ret false st1)
              end
          | Some cur =>
              let st1 := set_entry (ldap_next_entry cur) st in
              match entry st1 with
              | Some _ => Some (Ret true st1)
              | None =>
                  if isMorePageAvailable st1
                  then
                    match _query st1 with
                    | Ret _ st2 => fetch_fuel fuel' st2
                    | Throw what st2 => Some (Throw what st2)
                    | Undefined => Some Undefined
                    end
                  else Some (Ret false st1)
              end
          end
      end
  end.

Definition fetch : method bool :=
  fun st =>
    match fetch_fuel 2 st with
    | Some o => o
    | None => Undefined
    end.

(** [getAttribute(char* attributeName)] *)
Definition getAttribute (attributeName : string) : method (option (list berval)) :=
  cur <- get entry ;;
  match cur with
  | None => throw "No entry retrieved from server"
  | Some e => ret (ldap_get_values_len e attributeName)
  end.

(** *** Constructors.  They run on the object's storage as allocated:
    [raw] is whatever the members hold before the constructor body. *)

(** [ldapReader(const char* serverUri)] *)
Definition new_uri (serverUri : string) : method unit :=
  _start ;; _setUri serverUri ;; _initialize ;; _setVersion _DEFAULT_LDAP_VERSION.

(** [ldapReader(const char* serverUri, unsigned int version)] *)
Definition new_uri_version (serverUri : string) (v : Z) : method unit :=
  _start ;; _setUri serverUri ;; _initialize ;;
  if negb (v =? 0) then _setVersion v else ret tt.

(** [ldapReader(const char* serverUri, const char* bindUser, const char* bindPass)] *)
Definition new_uri_cred (serverUri user pass : string) : method unit :=
  _start ;; _setUri serverUri ;; _initialize ;;
  _setVersion _DEFAULT_LDAP_VERSION ;;
  bind_as user pass false.

(** [ldapReader(serverUri, bindUser, bindPass, version)] *)
Definition new_uri_cred_version (serverUri user pass : string) (v : Z)
    : method unit :=
  _start ;; _setUri serverUri ;; _initialize ;;
  (if negb (v =? 0) then _setVersion v else ret tt) ;;
  bind_as user pass false.

End Reader.

Arguments _query L st : simpl never.
Arguments fetch L st : simpl never.

(** ** [clearBerval]

    The function is static and touches no member.  Its argument is NULL or an
    array of slots, each a [berval*] or NULL; what it does is the list of
    releases it performs, or nothing defined when it walks off an array that
    holds no NULL. *)

Inductive Release : Type :=
| ber_bvfree (v : berval)
| delete_array.

Fixpoint free_until_null (slots : list (option berval)) : option (list Release) :=
  match slots with
  | [] => None
  | None :: _ => Some []
  | Some v :: rest => option_map (cons (ber_bvfree v)) (free_until_null rest)
  end.

Definition clearBerval (ptr : option (list (option berval)))
    : option (list Release) :=
  match ptr with
  | None => Some []
  | Some slots =>
      option_map (fun freed => freed ++ [delete_array]) (free_until_null slots)
  end.

(** The array behind the [berval**] that [getAttribute] returns. *)
Definition berval_array (p : option (list berval)) : option (list (option berval)) :=
  option_map (fun vals => map Some vals ++ [None]) p.

(** ** Sessions *)

(** [n] calls of [fetch()] in a row: what each returned, and the object after
    the last one ([None] once a call threw or was undefined). *)
Fixpoint fetch_times (L : LdapLibrary) (n : nat) (st : ldapReader)
    : list bool * option ldapReader :=
  match n with
  | O => ([], Some st)
  | S k =>
      match fetch L st with
      | Ret b st' =>
          let (bs, final) := fetch_times L k st' in (b :: bs, final)
      | _ => ([], None)
      end
  end.

(** The objects a program can hold: built by a constructor that returned,
    then used through the public member functions, whether a call returned or
    threw. *)
Inductive session (L : LdapLibrary) : ldapReader -> Prop :=
| session_new_uri raw serverUri st :
    new_uri L serverUri raw = Ret tt st -> session L st
| session_new_uri_version raw serverUri v st :
    new_uri_version L serverUri v raw = Ret tt st -> session L st
| session_new_uri_cred raw serverUri user pass st :
    new_uri_cred L serverUri user pass raw = Ret tt st -> session L st
| session_new_uri_cred_version raw serverUri user pass v st :
    new_uri_cred_version L serverUri user pass v raw = Ret tt st -> session L st
| session_bind st rebind st' :
    session L st -> state_after (bind L rebind st) = Some st' -> session L st'
| session_bind_as st user pass rebind st' :
    session L st -> state_after (bind_as L user pass rebind st) = Some st' ->
    session L st'
| session_setPageSize st ps st' :
    session L st -> state_after (setPageSize ps st) = Some st' -> session L st'
| session_query st filter base attrNum va st' :
    session L st -> state_after (query L filter base attrNum va st) = Some st' ->
    session L st'
| session_query_all st filter base st' :
    session L st -> state_after (query_all L filter base st) = Some st' ->
    session L st'
| session_fetch st st' :
    session L st -> state_after (fetch L st) = Some st' -> session L st'
| session_getAttribute st name st' :
    session L st -> state_after (getAttribute name st) = Some st' ->
    session L st'.

(** Any number of [fetch()] calls that returned, one after the other. *)
Inductive fetched (L : LdapLibrary) : ldapReader -> ldapReader -> Prop :=
| fetched_none st : fetched L st st
| fetched_more st b st' st'' :
    fetch L st = Ret b st' -> fetched L st' st'' -> fetched L st st''.

(** ** Released storage

    [query] passes the old [result] to [ldap_memfree].  That releases one
    block, the one the pointer points to: the head message of the chain.  The
    other messages of the chain are blocks of their own and stay allocated.
    [result] keeps pointing to the released block until the next search
    assigns it, and [entry] keeps pointing to it when the cursor was at the
    first entry.  The member functions above compute with such a pointer as
    if the block were still there.  [Storage] holds what they leave out, and
    the checked calls below run a member function under it: a call that
    reads a released block, or passes it to [ldap_memfree] again, has no
    defined behaviour. *)

Record Storage : Type := mkStorage {
  result_released : bool;  (* [result] was passed to [ldap_memfree], not assigned since *)
  entry_is_head : bool;    (* [entry] came from [ldap_first_entry]: the head message *)
  entry_released : bool    (* [entry] is a head message passed to [ldap_memfree] *)
}.

(** The storage of an object as constructed: no entry, nothing released. *)
Definition intact : Storage := mkStorage false false false.

Definition is_set {A : Type} (p : option A) : bool :=
  match p with
  | Some _ => true
  | None => false
  end.

(** The results passed to [ldap_memfree] among the calls of a handle. *)
Fixpoint releases (calls : list LibCall) : list LDAPMessage :=
  match calls with
  | [] => []
  | call_memfree res :: rest => res :: releases rest
  | _ :: rest => releases rest
  end.

(** Whether the call that took the object from [st] to [st'] passed [result]
    to [ldap_memfree], and whether it sent a search.  [ldap_search_ext_s]
    assigns [result]: after a search the pointer is a new one. *)
Definition released_during (st st' : ldapReader) : bool :=
  (List.length (releases (connection st))
   <? List.length (releases (connection st')))%nat.

Definition searched_during (st st' : ldapReader) : bool :=
  (List.length (searches (connection st))
   <? List.length (searches (connection st')))%nat.

(** [query] under the check.  The one release is [ldap_memfree(result)]: it
    is undefined on a block already released; it leaves [result] released
    until the search of [_query] assigns it, and [entry] released when
    [entry] is the head message. *)
Definition query_checked (L : LdapLibrary) (filter base : string) (attrNum : N)
    (va : list string) (st : ldapReader) (h : Storage) : outcome unit * Storage :=
  let o := query L filter base attrNum va st in
  match state_after o with
  | None => (Undefined, h)
  | Some st' =>
      let assigned := searched_during st st' in
      if released_during st st'
      then
        if result_released h then (Undefined, h)
        else (o, mkStorage (negb assigned) (entry_is_head h)
                   (entry_released h || (entry_is_head h && is_set (entry st))))
      else (o, mkStorage (result_released h && negb assigned) (entry_is_head h)
                 (entry_released h))
  end.

(** The storage after a [fetch()] that read no released block.  The entry it
    left, if any, is the head message when it came from [ldap_first_entry]:
    at the start of a page, or after the next page was fetched. *)
Definition after_fetch (st st' : ldapReader) (h : Storage) : Storage :=
  let paged := searched_during st st' in
  let first := match entry st with
               | None => true
               | Some _ => paged
               end in
  mkStorage (result_released h && negb paged) (first && is_set (entry st')) false.

(** [fetch()] under the check.  Without a result it reads no block.  With
    one and no entry it reads [result] in [ldap_first_entry]; with an entry
    it reads [entry] in [ldap_next_entry]. *)
Definition fetch_checked (L : LdapLibrary) (st : ldapReader) (h : Storage)
    : outcome bool * Storage :=
  match result st with
  | None => (fetch L st, h)
  | Some _ =>
      if match entry st with
         | None => result_released h
         | Some _ => entry_released h
         end
      then (Undefined, h)
      else
        let o := fetch L st in
        match state_after o with
        | None => (Undefined, h)
        | Some st' => (o, after_fetch st st' h)
        end
  end.

(** ** Scripted directories for the examples *)

Module Stub.

Definition value (s : string) : berval := berval_of_bytes (list_byte_of_string s).

Definition user (name : string) (groups : list string) : Entry :=
  mkEntry ("cn=" ++ name ++ ",ou=users,dc=example,dc=org")%string
    (("sAMAccountName", [value name]) ::
     match groups with
     | [] => []
     | _ => [("memberOf", map value groups)]
     end).

Definition alice : Entry := user "alice" ["cn=admins"; "cn=staff"; "cn=vpn"].
Definition bob : Entry := user "bob" [].
Definition carol : Entry := user "carol" ["cn=staff"].
Definition three_users : list Entry := [alice; bob; carol].

(** The cookie of the paging directory: as many ["x"] as entries sent. *)
Definition cookie_at (offset : nat) : list byte := repeat x78 offset.

Definition response (page : list Entry) (total : nat) (cookie : list byte)
    : LDAPMessage :=
  mkMessage page LDAP_SUCCESS
    (Some [mkControl LDAP_CONTROL_PAGEDRESULTS
             (Some (Z.of_nat total, cookie)) "F"%char]).

(** A server that pages [db]: a request with a cookie of [k] bytes and page
    size [P] gets entries [k .. k+P-1], and a cookie again while entries are
    left after them. *)
Definition paged_search (db : list Entry) (rq : SearchRequest)
    : Z * option LDAPMessage :=
  match rq_serverctrls rq with
  | Some (c :: _) =>
      match ldctl_value c with
      | Some (size, cookie) =>
          let offset := List.length cookie in
          let next := (offset + Z.to_nat size)%nat in
          (LDAP_SUCCESS,
           Some (response (firstn (Z.to_nat size) (skipn offset db))
                   (List.length db)
                   (if (next <? List.length db)%nat then cookie_at next else [])))
      | None => (2, None)
      end
  | _ => (12, None)
  end.

Definition err2string (rc : Z) : string :=
  if rc =? 49 then "Invalid credentials"
  else if rc =? 12 then "Critical extension is unavailable"
  else if rc =? 2 then "Protocol error"
  else "Unknown error".

(** Binds succeed with a non-empty password. *)
Definition sasl_bind (dn : option string) (cred : berval) : Z :=
  if (0 <? bv_len cred)%N then LDAP_SUCCESS else 49.

Definition directory (db : list Entry) : LdapLibrary :=
  mkLibrary (fun _ => LDAP_SUCCESS) (fun _ => LDAP_SUCCESS)
    (fun _ => sasl_bind) (fun _ _ _ _ => 0)
    (fun _ => paged_search db) err2string.

(** A server whose cookies are binary: after the first page it hands out
    the two octets 00 01. *)
Definition binary_cookie : list byte := [x00; x01].

Definition binary_search (rq : SearchRequest) : Z * option LDAPMessage :=
  match request_cookie rq with
  | Some [] => (LDAP_SUCCESS, Some (response [alice] 2 binary_cookie))
  | Some _ => (LDAP_SUCCESS, Some (response [bob] 2 []))
  | None => (12, None)
  end.

Definition binary_directory : LdapLibrary :=
  mkLibrary (fun _ => LDAP_SUCCESS) (fun _ => LDAP_SUCCESS)
    (fun _ => sasl_bind) (fun _ _ _ _ => 0)
    (fun _ => binary_search) err2string.

(** Object storage as allocated, here with every byte zero. *)
Definition zeroed : ldapReader :=
  mkReader [] None 0 None (mkBerval 0 None) None None None 0 (mkBerval 0 None)
    None None None None 0 zero false false false false.

Definition the_object {A : Type} (o : outcome A) : ldapReader :=
  match o with
  | Ret _ st => st
  | Throw _ st => st
  | Undefined => zeroed
  end.

Definition serverUri : string := "ldap://ldapserver.example.org".
Definition filter : string := "(objectClass=user)".
Definition base : string := "ou=users,dc=example,dc=org".

(** The scenario of the specification: three entries, page size two. *)
Definition lib : LdapLibrary := directory three_users.
Definition connected : ldapReader :=
  Eval vm_compute in
  the_object (new_uri lib serverUri zeroed).
Definition sized : ldapReader :=
  Eval vm_compute in
  the_object (setPageSize 2 connected).
Definition queried : ldapReader :=
  Eval vm_compute in
  the_object (query lib filter base 1 ["sAMAccountName"] sized).
(** Bound as the user of the example program. *)
Definition bindUser : string :=
  "cn=ldapbinduser,ou=Example Organization Unit,dc=example,dc=org".
Definition bound : ldapReader :=
  Eval vm_compute in
  the_object (bind_as lib bindUser "Password" false connected).
(** After one [fetch()]: positioned at the first entry of the first page. *)
Definition positioned : ldapReader :=
  Eval vm_compute in
  the_object (fetch lib queried).
(** A second query while the first is not exhausted. *)
Definition requeried : ldapReader :=
  Eval vm_compute in
  the_object (query_all lib filter base positioned).

(** After three calls of [fetch()]: at the last entry of the last page. *)
Definition at_last : ldapReader :=
  Eval vm_compute in
  match snd (fetch_times lib 3 queried) with
  | Some st => st
  | None => zeroed
  end.

(** A query against the directory with binary cookies. *)
Definition binary_queried : ldapReader :=
  Eval vm_compute in
  the_object (query_all binary_directory filter base connected).

(** Storage that held other data before: the cookie member is not zero. *)
Definition dirty : ldapReader := set_pageCookie (berval_of_bytes [x41; x42]) zeroed.
Definition dirty_queried : ldapReader :=
  Eval vm_compute in
  the_object (query_all lib filter base (the_object (new_uri lib serverUri dirty))).

(** The empty directory, queried. *)
Definition empty_queried : ldapReader :=
  Eval vm_compute in
  the_object (query_all (directory []) filter base connected).

(** A server that sends an empty page in the middle: one entry, then a page
    without entries that still carries a cookie, then one more entry. *)
Definition gap_search (rq : SearchRequest) : Z * option LDAPMessage :=
  match request_cookie rq with
  | Some [] => (LDAP_SUCCESS, Some (response [alice] 2 (cookie_at 1)))
  | Some [_] => (LDAP_SUCCESS, Some (response [] 2 (cookie_at 2)))
  | Some _ => (LDAP_SUCCESS, Some (response [bob] 2 []))
  | None => (12, None)
  end.

Definition gap_directory : LdapLibrary :=
  mkLibrary (fun _ => LDAP_SUCCESS) (fun _ => LDAP_SUCCESS)
    (fun _ => sasl_bind) (fun _ _ _ _ => 0)
    (fun _ => gap_search) err2string.

Definition gap_positioned : ldapReader :=
  Eval vm_compute in
  the_object (fetch gap_directory
                (the_object (query_all gap_directory filter base connected))).
Definition gap_next : ldapReader :=
  Eval vm_compute in
  the_object (_query gap_directory (set_entry None gap_positioned)).

(** A server that refuses every search, a library that cannot build the
    page control, and a server that answers without any control. *)
Definition refusing : LdapLibrary :=
  mkLibrary (fun _ => LDAP_SUCCESS) (fun _ => LDAP_SUCCESS)
    (fun _ => sasl_bind) (fun _ _ _ _ => 0)
    (fun _ _ => (32, None)) err2string.

Definition unencodable : LdapLibrary :=
  mkLibrary (fun _ => LDAP_SUCCESS) (fun _ => LDAP_SUCCESS)
    (fun _ => sasl_bind) (fun _ _ _ _ => -3)
    (fun _ => paged_search three_users) err2string.

Definition unpaged : LdapLibrary :=
  mkLibrary (fun _ => LDAP_SUCCESS) (fun _ => LDAP_SUCCESS)
    (fun _ => sasl_bind) (fun _ _ _ _ => 0)
    (fun _ _ => (LDAP_SUCCESS, Some (mkMessage three_users LDAP_SUCCESS None)))
    err2string.


(** After two calls of [fetch()]: at the last entry of the first page. *)
Definition at_second : ldapReader :=
  Eval vm_compute in the_object (fetch lib positioned).

(** Five entries, page size two: after two calls of [fetch()], at the last
    entry of the first page; then a second query; then the page after the
    one the second query received. *)
Definition dave : Entry := user "dave" [].
Definition erin : Entry := user "erin" ["cn=staff"].
Definition five_users : list Entry := three_users ++ [dave; erin].
Definition five_second : ldapReader :=
  Eval vm_compute in
  match snd (fetch_times (directory five_users) 2
               (the_object (query_all (directory five_users) filter base sized)))
  with
  | Some st => st
  | None => zeroed
  end.
Definition five_requeried : ldapReader :=
  Eval vm_compute in
  the_object (query_all (directory five_users) filter base five_second).
Definition five_next : ldapReader :=
  Eval vm_compute in
  the_object (_query (directory five_users) (set_entry None five_requeried)).

End Stub.

(** ** Auxiliary notions used in the statements *)

(** The search request that a page execution sends from the object [st]. *)
Definition page_request (st : ldapReader) : SearchRequest :=
  mkRequest (searchBase st) LDAP_SCOPE_SUBTREE (searchFilter st)
    (requestedAttributes st)
    (Some [page_control (pageSize st) (pageCookie st) (isPagingCritical st)])
    LDAP_NO_LIMIT.

(** The object after a page execution that sent [page_request st] and got
    the result [res], whose first control carries [count] and [cookie]. *)
Definition page_received (st : ldapReader) (res : LDAPMessage) (count : Z)
    (cookie : list byte) : ldapReader :=
  let pc := page_control (pageSize st) (pageCookie st) (isPagingCritical st) in
  set_isMorePageAvailable (0 <? strlen cookie)%nat
    (set_pageCookie (berval_of_bytes cookie)
       (set_resultCount count
          (set_result (Some res)
             (record_call (call_search (page_request st))
                (set_controls (Some [pc]) (set_pageControl (Some pc) st)))))).

(** What a page execution and [fetch()] leave alone. *)
Definition same_outside_paging (st st' : ldapReader) : Prop :=
  uri st' = uri st /\ version st' = version st /\
  bindUser st' = bindUser st /\ bindCred st' = bindCred st /\
  searchBase st' = searchBase st /\ searchFilter st' = searchFilter st /\
  requestedAttributes st' = requestedAttributes st /\
  pageSize st' = pageSize st /\ isPagingCritical st' = isPagingCritical st /\
  isInitialized st' = isInitialized st /\ isBinded st' = isBinded st /\
  isCredExist st' = isCredExist st.

(** The object [query] hands to the page execution: filter and base stored,
    the attribute list replaced only when names were given ([names] is
    [None] for [attrNum = 0]), and the old result, if any, released. *)
Definition stored_query (filter base : string) (names : option (list string))
    (st : ldapReader) : ldapReader :=
  let st1 := set_searchBase (Some base) (set_searchFilter (Some filter) st) in
  let st2 :=
    match names with
    | Some l => set_requestedAttributes (Some l) st1
    | None => st1
    end in
  match result st with
  | Some old => record_call (call_memfree old) st2
  | None => st2
  end.

(** The object in the middle of a paged read of [Stub.directory db] with
    page size [P]: it holds a page, [later] are the entries of [db] that no
    page has brought yet, the flag says whether there are any, and if so the
    stored cookie is the one that asks for them. *)
Definition paging (db : list Entry) (P : nat) (st : ldapReader)
    (later : list Entry) : Prop :=
  pageSize st = Z.of_nat P /\
  (exists res, result st = Some res) /\
  (exists sent,
     db = sent ++ later /\
     (later <> [] ->
      berval_bytes (pageCookie st) = Stub.cookie_at (List.length sent))) /\
  isMorePageAvailable st = match later with [] => false | _ :: _ => true end.

(** The berval [_setCred] stores for a password. *)
Definition cred_of (pass : string) : berval :=
  mkBerval (N.of_nat (String.length pass)) (Some (list_byte_of_string pass)).

(** A bound object holds credentials. *)
Definition bound_has_cred (st : ldapReader) : Prop :=
  isBinded st = true -> isCredExist st = true.

(** The object after [_setCred]. *)
Definition stored_cred (user pass : string) (st : ldapReader) : ldapReader :=
  set_isCredExist true (set_bindCred (cred_of pass) (set_bindUser (Some user) st)).

(** A search as the class sends it: over the subtree, without size limit,
    with one control, the paged-results control marked critical. *)
Definition paged_request (rq : SearchRequest) : Prop :=
  rq_scope rq = LDAP_SCOPE_SUBTREE /\
  rq_sizelimit rq = LDAP_NO_LIMIT /\
  exists size cookie,
    rq_serverctrls rq
      = Some [mkControl LDAP_CONTROL_PAGEDRESULTS (Some (size, cookie)) "T"%char].

(** What holds of every object of a session. *)
Definition session_invariant (st : ldapReader) : Prop :=
  isInitialized st = true /\
  (exists u, uri st = Some u) /\
  isPagingCritical st = "T"%char /\
  (isBinded st = true -> isCredExist st = true) /\
  (isCredExist st = true ->
   exists user pass, bindUser st = Some user /\ bindCred st = cred_of pass) /\
  Forall paged_request (searches (connection st)).

(** The pages it takes to bring [n] entries, [P] at a time. *)
Definition pages_for (P n : nat) : nat := ((n + P - 1) / P)%nat.

(** A call of a public member function, and the object it leaves. *)
Inductive Call : Type :=
| call_bind (rebind : bool)
| call_bind_as (user pass : string) (rebind : bool)
| call_setPageSize (ps : Z)
| call_query (filter base : string) (attrNum : N) (va : list string)
| call_query_all (filter base : string)
| call_fetch
| call_getAttribute (name : string).

Definition after_call (L : LdapLibrary) (c : Call) (st : ldapReader)
    : option ldapReader :=
  match c with
  | call_bind rebind => state_after (bind L rebind st)
  | call_bind_as user pass rebind => state_after (bind_as L user pass rebind st)
  | call_setPageSize ps => state_after (setPageSize ps st)
  | call_query filter base attrNum va =>
      state_after (query L filter base attrNum va st)
  | call_query_all filter base => state_after (query_all L filter base st)
  | call_fetch => state_after (fetch L st)
  | call_getAttribute name => state_after (getAttribute name st)
  end.

(** ** The example program [main.cpp] *)

Module Main.

Definition serverUri : string := "ldap://ldapserver.example.org".
Definition quote : string := String (ascii_of_nat 34) EmptyString.
Definition user : string :=
  ("cn=ldapbinduser,ou=" ++ quote ++ "Example Organization Unit" ++ quote
   ++ ",dc=example,dc=org")%string.
Definition pass : string := "Password".
Definition filter : string := "(objectClass=user)".
Definition base : string := "ou=SSO,dc=example,dc=org".
Definition rule : string :=
  "---------------------------------------------------------".

(** How the program ends: with an exit code and the lines written to
    [cerr] and [cout]; by an exception that nothing catches; or without
    defined behaviour. *)
Inductive Run : Type :=
| Exit (code : Z) (cerr cout : list string)
| Terminate (what : string)
| NoBehaviour.

(** What [cout << p->bv_val] writes: the buffer as a C string.  A null
    buffer has nothing to write. *)
Definition c_string (v : berval) : option string :=
  match bv_val v with
  | Some s => Some (string_of_list_byte (firstn (strlen s) s))
  | None => None
  end.

(** The lines the body of the loop writes for the positioned entry: the
    rule, the first value of [sAMAccountName] (nothing when there is none),
    each value of [memberOf], the rule. *)
Definition print_entry (r : ldapReader) : Run :=
  match getAttribute "sAMAccountName" r with
  | Undefined => NoBehaviour
  | Throw what _ => Terminate what
  | Ret account r1 =>
      match
        match values_of account with
        | [] => Some ""
        | v :: _ => c_string v
        end
      with
      | None => NoBehaviour
      | Some name =>
          match getAttribute "memberOf" r1 with
          | Undefined => NoBehaviour
          | Throw what _ => Terminate what
          | Ret groups _ =>
              match
                fold_right
                  (fun v acc =>
                     match c_string v, acc with
                     | Some line, Some lines => Some (line :: lines)
                     | _, _ => None
                     end)
                  (Some []) (values_of groups)
              with
              | None => NoBehaviour
              | Some lines => Exit 0 [] (rule :: name :: lines ++ [rule])
              end
          end
      end
  end.

(** [main]: build the reader and bind, query with three names announced and
    two passed, then print the first entry. *)
Definition main (L : LdapLibrary) (raw : ldapReader) : Run :=
  match
    (new_uri_cred L serverUri user pass ;;
     query L filter base 3 ["sAMAccountName"; "memberOf"]) raw
  with
  | Throw what _ => Exit (-1) [what] []
  | Undefined => NoBehaviour
  | Ret _ reader1 =>
      match fetch L reader1 with
      | Undefined => NoBehaviour
      | Throw what _ => Terminate what
      | Ret false _ => Exit 0 [] []
      | Ret true r => print_entry r
      end
  end.

End Main.

(** * Properties *)

Ltac run_methods :=
  unfold new_uri, new_uri_version, new_uri_cred, new_uri_cred_version,
    query_all in *;
  unfold query, bind, bind_as, setPageSize, getAttribute in *;
  unfold _query, _prepareControls, _preparePageControl, _bind, _setCred,
    _setVersion, _initialize, _setUri, _start in *;
  unfold _preparePageControl in *;
  unfold mbind, ret, throw, undefined, this, get, assign, record_call in *;
  simpl in *.

(** Case analysis on the innermost scrutinee of a hypothesis. *)
Ltac inner_hyp_match H :=
  match type of H with
  | context [match ?x with _ => _ end] =>
      lazymatch x with
      | context [match _ with _ => _ end] => fail
      | _ => destruct x eqn:?; simpl in H
      end
  end.

(** What the parsing functions of the library say about a result. *)
Ltac library_facts :=
  repeat match goal with
  | H : negb (_ =? _) = false |- _ => apply negb_false_iff, Z.eqb_eq in H
  | H : negb (_ =? _) = true |- _ => apply negb_true_iff in H
  | H : ldap_parse_result ?o = _ |- _ =>
      unfold ldap_parse_result in H; destruct o; inversion H; subst; clear H
  | H : ldap_parse_pageresponse_control (hd_error ?l) = _ |- _ =>
      unfold ldap_parse_pageresponse_control in H;
      destruct l as [|? ?]; simpl in H;
      [| destruct (ldctl_value _) as [[? ?]|] eqn:?];
      inversion H; subst; clear H
  end.

Section PageExecution.

Variable L : LdapLibrary.

(** A page execution that returns has sent exactly [page_request st], got a
    result whose first control decodes, and left [page_received]. *)
Lemma _query_returns (st st' : ldapReader) :
  _query L st = Ret tt st' ->
  exists res c rest count cookie,
    ldap_search_ext_s L (connection st) (page_request st)
      = (LDAP_SUCCESS, Some res) /\
    msg_parse_rc res = LDAP_SUCCESS /\
    msg_controls res = Some (c :: rest) /\
    ldctl_value c = Some (count, cookie) /\
    st' = page_received st res count cookie.
Proof.
  unfold page_request, page_received.
  intros H. run_methods.
  repeat (inner_hyp_match H; try discriminate H).
  all: inversion H; subst; clear H; library_facts; subst; simpl in *.
  all: try discriminate.
  all: try match goal with E : Some _ = Some _ |- _ => inversion E; subst; clear E end.
  all: do 5 eexists; repeat split; try eassumption; try reflexivity.
  all: match goal with E : (0 <? strlen _)%nat = _ |- _ => rewrite E end;
    reflexivity.
Qed.

(** However a page execution ends, it leaves the cursor, the bind state and
    the stored query alone, and it has sent at most the one request. *)
Lemma _query_effects (st st' : ldapReader) :
  state_after (_query L st) = Some st' ->
  same_outside_paging st st' /\
  entry st' = entry st /\
  (connection st' = connection st \/
   connection st' = call_search (page_request st) :: connection st).
Proof.
  unfold same_outside_paging, page_request.
  intros H. run_methods.
  repeat (inner_hyp_match H; try discriminate H).
  all: inversion H; subst; clear H; simpl.
  all: repeat split; auto.
Qed.

End PageExecution.

Section Cursor.

Variable L : LdapLibrary.

(** One level of [fetch()]. *)
Lemma fetch_fuel_S (k : nat) (st : ldapReader) :
  fetch_fuel L (S k) st =
    match result st with
    | None => Some (Ret false st)
    | Some res =>
        match entry st with
        | None =>
            match ldap_first_entry res with
            | Some e => Some (Ret true (set_entry (Some e) st))
            | None => Some (Ret false (set_entry None st))
            end
        | Some cur =>
            match ldap_next_entry cur with
            | Some nxt => Some (Ret true (set_entry (Some nxt) st))
            | None =>
                if isMorePageAvailable st
                then
                  match _query L (set_entry None st) with
                  | Ret _ st2 => fetch_fuel L k st2
                  | Throw what st2 => Some (Throw what st2)
                  | Undefined => Some Undefined
                  end
                else Some (Ret false (set_entry None st))
            end
        end
    end.
Proof.
  cbn [fetch_fuel].
  destruct (result st) as [res|]; [|reflexivity].
  destruct (entry st) as [cur|].
  - destruct (ldap_next_entry cur); reflexivity.
  - destruct (ldap_first_entry res); reflexivity.
Qed.

(** [fetch()] case by case, in the order of its branches. *)

Lemma fetch_no_result (st : ldapReader) :
  result st = None -> fetch L st = Ret false st.
Proof.
  intros H. unfold fetch. rewrite fetch_fuel_S, H. reflexivity.
Qed.

Lemma fetch_first (st : ldapReader) (res : LDAPMessage) :
  result st = Some res -> entry st = None ->
  fetch L st =
    match ldap_first_entry res with
    | Some e => Ret true (set_entry (Some e) st)
    | None => Ret false (set_entry None st)
    end.
Proof.
  intros Hres Hent. unfold fetch. rewrite fetch_fuel_S, Hres, Hent.
  destruct (ldap_first_entry res); reflexivity.
Qed.

Lemma fetch_next (st : ldapReader) (res : LDAPMessage) (cur nxt : EntryRef) :
  result st = Some res -> entry st = Some cur ->
  ldap_next_entry cur = Some nxt ->
  fetch L st = Ret true (set_entry (Some nxt) st).
Proof.
  intros Hres Hent Hnext. unfold fetch.
  rewrite fetch_fuel_S, Hres, Hent, Hnext. reflexivity.
Qed.

Lemma fetch_last (st : ldapReader) (res : LDAPMessage) (cur : EntryRef) :
  result st = Some res -> entry st = Some cur ->
  ldap_next_entry cur = None -> isMorePageAvailable st = false ->
  fetch L st = Ret false (set_entry None st).
Proof.
  intros Hres Hent Hnext Hmore. unfold fetch.
  rewrite fetch_fuel_S, Hres, Hent, Hnext, Hmore. reflexivity.
Qed.

(** One level is enough when the cursor is not positioned. *)
Lemma fetch_fuel_unpositioned (n : nat) (st : ldapReader) :
  entry st = None -> fetch_fuel L (S n) st = Some (fetch L st).
Proof.
  intros Hent. unfold fetch. rewrite !fetch_fuel_S, Hent.
  destruct (result st) as [res|]; [|reflexivity].
  destruct (ldap_first_entry res); reflexivity.
Qed.

(** A page execution keeps the cursor where it was. *)
Lemma _query_keeps_entry (st st2 : ldapReader) :
  _query L st = Ret tt st2 -> entry st2 = entry st.
Proof.
  intros E.
  assert (S : state_after (_query L st) = Some st2) by (rewrite E; reflexivity).
  apply _query_effects in S. tauto.
Qed.

Lemma fetch_next_page (st : ldapReader) (res : LDAPMessage) (cur : EntryRef) :
  result st = Some res -> entry st = Some cur ->
  ldap_next_entry cur = None -> isMorePageAvailable st = true ->
  fetch L st =
    match _query L (set_entry None st) with
    | Ret _ st2 => fetch L st2
    | Throw what st2 => Throw what st2
    | Undefined => Undefined
    end.
Proof.
  intros Hres Hent Hnext Hmore. unfold fetch at 1.
  rewrite fetch_fuel_S, Hres, Hent, Hnext, Hmore.
  destruct (_query L (set_entry None st)) as [[] st2| |] eqn:E; try reflexivity.
  apply _query_keeps_entry in E. cbn [entry set_entry] in E.
  rewrite (fetch_fuel_unpositioned 0 st2 E). reflexivity.
Qed.

(** The page that [fetch()] moved to is entered at its first entry: the
    call inside [fetch()] never calls [fetch()] again. *)
Lemma fetch_after_page (st st2 : ldapReader) :
  entry st = None -> _query L st = Ret tt st2 ->
  exists res2,
    result st2 = Some res2 /\
    fetch L st2 =
      match ldap_first_entry res2 with
      | Some e => Ret true (set_entry (Some e) st2)
      | None => Ret false (set_entry None st2)
      end.
Proof.
  intros Hent E.
  assert (Hent2 : entry st2 = None)
    by (rewrite (_query_keeps_entry _ _ E); exact Hent).
  apply _query_returns in E.
  destruct E as (res2 & c & rest & count & cookie & _ & _ & _ & _ & Hst2).
  assert (Hres2 : result st2 = Some res2) by (rewrite Hst2; reflexivity).
  exists res2. split; [exact Hres2|].
  apply fetch_first; assumption.
Qed.

(** X1.  Two levels of recursion are all [fetch()] uses: more fuel changes
    nothing, and the call always ends. *)
Lemma fetch_fuel_enough (n : nat) (st : ldapReader) :
  fetch_fuel L (S (S n)) st = Some (fetch L st).
Proof.
  unfold fetch. rewrite (fetch_fuel_S (S n)), (fetch_fuel_S 1).
  destruct (result st) as [res|]; [|reflexivity].
  destruct (entry st) as [cur|]; [|destruct (ldap_first_entry res); reflexivity].
  destruct (ldap_next_entry cur); [reflexivity|].
  destruct (isMorePageAvailable st); [|reflexivity].
  destruct (_query L (set_entry None st)) as [[] st2| |] eqn:E; try reflexivity.
  apply _query_keeps_entry in E. cbn [entry set_entry] in E.
  rewrite (fetch_fuel_unpositioned n st2 E), (fetch_fuel_unpositioned 0 st2 E).
  reflexivity.
Qed.

(** [fetch()] leaves the bind state and the stored query alone. *)
Lemma same_outside_paging_set_entry (st s : ldapReader) (v : option EntryRef) :
  same_outside_paging st s -> same_outside_paging st (set_entry v s).
Proof. unfold same_outside_paging. cbn. auto. Qed.

Lemma same_outside_paging_refl (st : ldapReader) : same_outside_paging st st.
Proof. unfold same_outside_paging. repeat split. Qed.

Lemma fetch_frame (st st' : ldapReader) :
  state_after (fetch L st) = Some st' -> same_outside_paging st st'.
Proof.
  destruct (result st) as [res|] eqn:Hres.
  2:{ rewrite (fetch_no_result _ Hres). cbn. intros H; inversion H; subst.
      apply same_outside_paging_refl. }
  destruct (entry st) as [cur|] eqn:Hent.
  2:{ rewrite (fetch_first _ _ Hres Hent).
      destruct (ldap_first_entry res); cbn; intros H; inversion H; subst;
        apply same_outside_paging_set_entry, same_outside_paging_refl. }
  destruct (ldap_next_entry cur) as [nxt|] eqn:Hnext.
  { rewrite (fetch_next _ _ _ _ Hres Hent Hnext). cbn.
    intros H; inversion H; subst.
    apply same_outside_paging_set_entry, same_outside_paging_refl. }
  destruct (isMorePageAvailable st) eqn:Hmore.
  2:{ rewrite (fetch_last _ _ _ Hres Hent Hnext Hmore). cbn.
      intros H; inversion H; subst.
      apply same_outside_paging_set_entry, same_outside_paging_refl. }
  rewrite (fetch_next_page _ _ _ Hres Hent Hnext Hmore).
  assert (F : forall s, state_after (_query L (set_entry None st)) = Some s ->
                        same_outside_paging st s).
  { intros s S. apply _query_effects in S. destruct S as [S _].
    unfold same_outside_paging in *. cbn in S. exact S. }
  destruct (_query L (set_entry None st)) as [[] st2|what st2|] eqn:E.
  - destruct (fetch_after_page (set_entry None st) st2 eq_refl E)
      as (res2 & _ & ->).
    specialize (F st2 eq_refl).
    destruct (ldap_first_entry res2); cbn; intros H; inversion H; subst;
      apply same_outside_paging_set_entry; exact F.
  - cbn. intros H; inversion H; subst. apply F. reflexivity.
  - cbn. discriminate.
Qed.

(** With the flag off, [fetch()] returns without a call to the library. *)
Lemma fetch_without_more_pages (st : ldapReader) :
  isMorePageAvailable st = false ->
  exists b st', fetch L st = Ret b st' /\ connection st' = connection st /\
                isMorePageAvailable st' = false /\ result st' = result st.
Proof.
  intros Hmore.
  destruct (result st) as [res|] eqn:Hres.
  2:{ exists false, st. rewrite (fetch_no_result _ Hres). auto. }
  destruct (entry st) as [cur|] eqn:Hent.
  - destruct (ldap_next_entry cur) as [nxt|] eqn:Hnext.
    + exists true, (set_entry (Some nxt) st).
      rewrite (fetch_next _ _ _ _ Hres Hent Hnext). cbn. auto.
    + exists false, (set_entry None st).
      rewrite (fetch_last _ _ _ Hres Hent Hnext Hmore). cbn. auto.
  - rewrite (fetch_first _ _ Hres Hent).
    destruct (ldap_first_entry res) as [e|].
    + exists true, (set_entry (Some e) st). cbn. auto.
    + exists false, (set_entry None st). cbn. auto.
Qed.

End Cursor.

(** ** The cursor without a result set *)

Section NoResult.

Variable L : LdapLibrary.

(** [_start] leaves no result and no current entry, whatever the storage
    held. *)
Lemma _start_clears_result (raw st : ldapReader) :
  _start raw = Ret tt st ->
  result st = None /\ entry st = None /\ isMorePageAvailable st = false /\
  isBinded st = false /\ isCredExist st = false /\
  pageCookie st = pageCookie raw.
Proof.
  unfold _start, mbind, get, assign. intros H. inversion H; subst; clear H.
  cbn. repeat split.
Qed.

(** An object that [ldapReader(serverUri)] returned has no result and no
    entry. *)
Lemma new_uri_without_result (raw st : ldapReader) (serverUri : string) :
  new_uri L serverUri raw = Ret tt st -> result st = None /\ entry st = None.
Proof.
  intros H. run_methods.
  repeat (inner_hyp_match H; try discriminate H).
  inversion H; subst; clear H. cbn. split; reflexivity.
Qed.

(** C7.  While the object holds no result set ([result] is NULL: no query has
    been executed, or the search left none), every call of [fetch()] returns
    false and leaves the object as it was, so no call positions the cursor:
    [n] calls in a row return [n] times false. *)
Theorem fetch_without_result_set (st : ldapReader) (n : nat) :
  result st = None ->
  fetch_times L n st = (repeat false n, Some st).
Proof.
  intros Hres. induction n as [|n IH]; [reflexivity|].
  cbn [fetch_times repeat].
  rewrite (fetch_no_result L st Hres), IH. reflexivity.
Qed.

End NoResult.

Lemma fetch_without_result_set_witness :
  result Stub.connected = None /\
  fetch_times Stub.lib 3 Stub.connected = ([false; false; false], Some Stub.connected).
Proof.
  split; [reflexivity|].
  exact (fetch_without_result_set Stub.lib Stub.connected 3 eq_refl).
Defined.

(** ** Attribute access *)

(** Lookup finds nothing in an entry none of whose attributes has the name. *)
Lemma ldap_get_values_len_in_absent (attrs : list (string * list berval))
    (name : string) :
  (forall a vals, In (a, vals) attrs -> strcasecmp_eq a name = false) ->
  ldap_get_values_len_in attrs name = None.
Proof.
  induction attrs as [|[a vals] rest IH]; intros Habs; [reflexivity|].
  cbn [ldap_get_values_len_in].
  rewrite (Habs a vals (or_introl eq_refl)).
  apply IH. intros a' vals' Hin. apply (Habs a' vals'). right. exact Hin.
Qed.

(** Lookup returns the values of a present attribute as stored, in order. *)
Lemma ldap_get_values_len_in_present (before after : list (string * list berval))
    (a name : string) (vals : list berval) :
  (forall a' vals', In (a', vals') before -> strcasecmp_eq a' name = false) ->
  strcasecmp_eq a name = true ->
  ldap_get_values_len_in (before ++ (a, vals) :: after) name = Some vals.
Proof.
  intros Hbefore Hname.
  induction before as [|[a' vals'] rest IH]; cbn [ldap_get_values_len_in app].
  - rewrite Hname. reflexivity.
  - rewrite (Hbefore a' vals' (or_introl eq_refl)).
    apply IH. intros a'' vals'' Hin. apply (Hbefore a'' vals''). right. exact Hin.
Qed.

(** C5.  [getAttribute] throws "No entry retrieved from server" when no entry
    is positioned.  With an entry positioned that has no attribute of the
    given name it returns, without throwing and without touching the object,
    the NULL value set, which holds no value. *)
Theorem getAttribute_unpositioned_or_absent (st : ldapReader) (name : string) :
  (entry st = None ->
   getAttribute name st = Throw "No entry retrieved from server" st) /\
  (forall cur,
     entry st = Some cur ->
     (forall a vals, In (a, vals) (entry_attrs (ref_entry cur)) ->
                     strcasecmp_eq a name = false) ->
     exists r, getAttribute name st = Ret r st /\ r = None /\ values_of r = []).
Proof.
  unfold getAttribute, mbind, get, throw, ret. split.
  - intros ->. reflexivity.
  - intros cur -> Habs. exists None.
    unfold ldap_get_values_len.
    rewrite (ldap_get_values_len_in_absent _ _ Habs). auto.
Qed.

Lemma getAttribute_unpositioned_or_absent_witness :
  getAttribute "memberOf" Stub.queried
    = Throw "No entry retrieved from server" Stub.queried /\
  exists r,
    getAttribute "mail"
      (set_entry (Some (mkRef Stub.bob [Stub.carol])) Stub.queried)
      = Ret r (set_entry (Some (mkRef Stub.bob [Stub.carol])) Stub.queried) /\
    r = None /\ values_of r = [].
Proof.
  split.
  - exact (proj1 (getAttribute_unpositioned_or_absent Stub.queried "memberOf")
             eq_refl).
  - apply (proj2 (getAttribute_unpositioned_or_absent
                    (set_entry (Some (mkRef Stub.bob [Stub.carol])) Stub.queried)
                    "mail")
             (mkRef Stub.bob [Stub.carol]) eq_refl).
    intros a vals [H|[]]. inversion H; subst. reflexivity.
Defined.

(** X6.  [getAttribute] on an entry that has the attribute returns its values as
    the server sent them: all of them, in order ([before] are the attributes
    of the entry ahead of it; names compare without regard to case). *)
Theorem getAttribute_present (st : ldapReader) (cur : EntryRef)
    (before after : list (string * list berval)) (a name : string)
    (vals : list berval) :
  entry st = Some cur ->
  entry_attrs (ref_entry cur) = before ++ (a, vals) :: after ->
  (forall a' vals', In (a', vals') before -> strcasecmp_eq a' name = false) ->
  strcasecmp_eq a name = true ->
  getAttribute name st = Ret (Some vals) st.
Proof.
  intros Hent Hattrs Hbefore Hname.
  unfold getAttribute, mbind, get, ret. rewrite Hent.
  unfold ldap_get_values_len. rewrite Hattrs.
  rewrite (ldap_get_values_len_in_present before after a name vals Hbefore Hname).
  reflexivity.
Qed.

Lemma getAttribute_present_witness :
  getAttribute "memberof" Stub.positioned
    = Ret (Some [Stub.value "cn=admins"; Stub.value "cn=staff"; Stub.value "cn=vpn"])
        Stub.positioned.
Proof.
  apply (getAttribute_present Stub.positioned (mkRef Stub.alice [Stub.bob])
           [("sAMAccountName", [Stub.value "alice"])] [] "memberOf" "memberof").
  - vm_compute. reflexivity.
  - reflexivity.
  - intros a' vals' [H|[]]. inversion H; subst. reflexivity.
  - reflexivity.
Defined.

(** ** Releasing a value set *)

(** The loop frees the values before the first NULL slot, in order. *)
Lemma free_until_null_values (vals : list berval) (rest : list (option berval)) :
  free_until_null (map Some vals ++ None :: rest) = Some (map ber_bvfree vals).
Proof.
  induction vals as [|v vals IH]; cbn [map app free_until_null].
  - reflexivity.
  - rewrite IH. reflexivity.
Qed.

(** C8.  [clearBerval] on NULL releases nothing and is defined; on an array
    it frees every value before the terminating NULL, in order, and then the
    array itself. *)
Theorem clearBerval_releases :
  clearBerval None = Some [] /\
  forall (vals : list berval) (rest : list (option berval)),
    clearBerval (Some (map Some vals ++ None :: rest))
      = Some (map ber_bvfree vals ++ [delete_array]).
Proof.
  split; [reflexivity|].
  intros vals rest. unfold clearBerval.
  rewrite free_until_null_values. reflexivity.
Qed.

(** Releasing what [getAttribute] returned: nothing for NULL, else each of
    the values and then the array. *)
Lemma clearBerval_of_values (p : option (list berval)) :
  clearBerval (berval_array p)
    = Some match p with
           | None => []
           | Some vals => map ber_bvfree vals ++ [delete_array]
           end.
Proof.
  destruct p as [vals|]; [|reflexivity].
  cbn [berval_array option_map clearBerval].
  rewrite (free_until_null_values vals []). reflexivity.
Qed.

(** ** Too many attributes *)

Section AttributeBound.

Variable L : LdapLibrary.

(** C6.  [query] with more than 50 attribute names throws "Too many
    attributes requested." after storing filter and base and before any call
    to the library: the calls recorded on the connection, and so the search
    requests sent, are the same as before, and the old result is still held. *)
Theorem query_too_many_attributes (st : ldapReader) (filter base : string)
    (attrNum : N) (va : list string) :
  (_DEFAULT_MAX_NUMBER_OF_ATTRIBUTES < attrNum)%N ->
  let st' := set_searchBase (Some base) (set_searchFilter (Some filter) st) in
  query L filter base attrNum va st = Throw "Too many attributes requested." st' /\
  connection st' = connection st /\
  searches (connection st') = searches (connection st) /\
  result st' = result st.
Proof.
  intros Hmany st'. subst st'.
  assert (Hpos : (0 <? attrNum)%N = true)
    by (apply N.ltb_lt; unfold _DEFAULT_MAX_NUMBER_OF_ATTRIBUTES in Hmany; lia).
  apply N.ltb_lt in Hmany.
  unfold query, mbind, assign, throw. rewrite Hpos, Hmany.
  cbn. repeat split.
Qed.

End AttributeBound.

Lemma query_too_many_attributes_witness :
  query Stub.lib Stub.filter Stub.base 51 (repeat "cn" 51) Stub.sized
    = Throw "Too many attributes requested."
        (set_searchBase (Some Stub.base)
           (set_searchFilter (Some Stub.filter) Stub.sized)) /\
  searches (connection (set_searchBase (Some Stub.base)
                          (set_searchFilter (Some Stub.filter) Stub.sized)))
    = searches (connection Stub.sized).
Proof.
  destruct (query_too_many_attributes Stub.lib Stub.sized Stub.filter Stub.base
              51 (repeat "cn" 51) eq_refl) as (Hthrow & _ & Hsent & _).
  split; [exact Hthrow | exact Hsent].
Defined.

(** ** Binding *)

Section Binding.

Variable L : LdapLibrary.

(** [query] touches neither the bind state nor the credentials. *)
Lemma query_keeps_bind_state (st st' : ldapReader) (filter base : string)
    (attrNum : N) (va : list string) :
  state_after (query L filter base attrNum va st) = Some st' ->
  isBinded st' = isBinded st /\ isCredExist st' = isCredExist st.
Proof.
  unfold query, mbind, assign, get, ret, throw, undefined, record_call.
  intros H. cbn in H.
  repeat (inner_hyp_match H; try discriminate H).
  all: try (inversion H; subst; clear H; cbn; split; reflexivity).
  all: destruct (_query_effects L _ _ H) as [F _];
    unfold same_outside_paging in F; cbn in F; tauto.
Qed.

(** Sequencing: a sequence returns when both parts do. *)
Lemma mbind_returns {A B : Type} (m : method A) (k : A -> method B)
    (st st' : ldapReader) (b : B) :
  mbind m k st = Ret b st' ->
  exists a s1, m st = Ret a s1 /\ k a s1 = Ret b st'.
Proof.
  unfold mbind. destruct (m st) as [a s1| |]; try discriminate.
  intros H. exists a, s1. auto.
Qed.

(** The steps of the constructors. *)
Lemma _initialize_returns (st st' : ldapReader) :
  _initialize L st = Ret tt st' ->
  st' = set_isInitialized true (set_connection [] st).
Proof.
  intros H. run_methods.
  repeat (inner_hyp_match H; try discriminate H).
  inversion H. reflexivity.
Qed.

Lemma _setVersion_returns (st st' : ldapReader) (v : Z) :
  _setVersion L v st = Ret tt st' -> st' = set_version v st.
Proof.
  intros H. run_methods.
  repeat (inner_hyp_match H; try discriminate H).
  inversion H. reflexivity.
Qed.

(** An object is not bound after the common part of the constructors. *)
Lemma constructed_unbound (raw st : ldapReader) (serverUri : string) :
  (_start ;; _setUri serverUri ;; _initialize L) raw = Ret tt st ->
  isBinded st = false /\ isCredExist st = false.
Proof.
  intros H.
  apply mbind_returns in H. destruct H as ([] & s1 & Hstart & H).
  apply mbind_returns in H. destruct H as ([] & s2 & Huri & H).
  apply _initialize_returns in H.
  apply _start_clears_result in Hstart.
  destruct Hstart as (_ & _ & _ & Hb & Hc & _).
  unfold _setUri, assign in Huri. inversion Huri; subst. cbn. auto.
Qed.

(** What the member functions do to the two flags. *)
Lemma bind_keeps_invariant (st st' : ldapReader) (rebind : bool) :
  bound_has_cred st -> state_after (bind L rebind st) = Some st' ->
  bound_has_cred st'.
Proof.
  unfold bound_has_cred. intros IH H. run_methods.
  repeat (inner_hyp_match H; try discriminate H).
  all: inversion H; subst; clear H; cbn; auto.
  intros _. destruct (isCredExist st); [reflexivity|discriminate].
Qed.

Lemma bind_as_keeps_invariant (st st' : ldapReader) (user pass : string)
    (rebind : bool) :
  bound_has_cred st -> state_after (bind_as L user pass rebind st) = Some st' ->
  bound_has_cred st'.
Proof.
  unfold bound_has_cred. intros IH H. run_methods.
  repeat (inner_hyp_match H; try discriminate H).
  all: inversion H; subst; clear H; cbn; auto.
Qed.

Lemma getAttribute_keeps_object (st st' : ldapReader) (name : string) :
  state_after (getAttribute name st) = Some st' -> st' = st.
Proof.
  intros H. run_methods.
  repeat (inner_hyp_match H; try discriminate H).
  all: inversion H; reflexivity.
Qed.

(** Every object of a session that is bound holds credentials. *)
Lemma session_bound_has_cred (st : ldapReader) :
  session L st -> bound_has_cred st.
Proof.
  induction 1 as
    [raw u st H | raw u v st H | raw u usr pw st H | raw u usr pw v st H
    | st rebind st' _ IH H | st usr pw rebind st' _ IH H | st ps st' _ IH H
    | st f b n va st' _ IH H | st f b st' _ IH H | st st' _ IH H
    | st name st' _ IH H].
  - (* ldapReader(uri) *)
    unfold new_uri in H.
    apply mbind_returns in H. destruct H as ([] & s1 & H1 & H).
    apply mbind_returns in H. destruct H as ([] & s2 & H2 & H).
    apply mbind_returns in H. destruct H as ([] & s3 & H3 & H).
    assert (C : (_start ;; _setUri u ;; _initialize L) raw = Ret tt s3).
    { unfold mbind. rewrite H1, H2. exact H3. }
    apply constructed_unbound in C. apply _setVersion_returns in H. subst st.
    unfold bound_has_cred. cbn. destruct C as [-> _]. discriminate.
  - (* ldapReader(uri, version) *)
    unfold new_uri_version in H.
    apply mbind_returns in H. destruct H as ([] & s1 & H1 & H).
    apply mbind_returns in H. destruct H as ([] & s2 & H2 & H).
    apply mbind_returns in H. destruct H as ([] & s3 & H3 & H).
    assert (C : (_start ;; _setUri u ;; _initialize L) raw = Ret tt s3).
    { unfold mbind. rewrite H1, H2. exact H3. }
    apply constructed_unbound in C. destruct C as [C _].
    unfold bound_has_cred.
    destruct (negb (v =? 0)).
    + apply _setVersion_returns in H. subst st. cbn. rewrite C. discriminate.
    + inversion H; subst. rewrite C. discriminate.
  - (* ldapReader(uri, user, pass) *)
    unfold new_uri_cred in H.
    apply mbind_returns in H. destruct H as ([] & s1 & H1 & H).
    apply mbind_returns in H. destruct H as ([] & s2 & H2 & H).
    apply mbind_returns in H. destruct H as ([] & s3 & H3 & H).
    apply mbind_returns in H. destruct H as ([] & s4 & H4 & H).
    assert (C : (_start ;; _setUri u ;; _initialize L) raw = Ret tt s3).
    { unfold mbind. rewrite H1, H2. exact H3. }
    apply constructed_unbound in C. destruct C as [C _].
    apply _setVersion_returns in H4. subst s4.
    apply (bind_as_keeps_invariant (set_version _DEFAULT_LDAP_VERSION s3) st usr pw false).
    + unfold bound_has_cred. cbn. rewrite C. discriminate.
    + rewrite H. reflexivity.
  - (* ldapReader(uri, user, pass, version) *)
    unfold new_uri_cred_version in H.
    apply mbind_returns in H. destruct H as ([] & s1 & H1 & H).
    apply mbind_returns in H. destruct H as ([] & s2 & H2 & H).
    apply mbind_returns in H. destruct H as ([] & s3 & H3 & H).
    apply mbind_returns in H. destruct H as ([] & s4 & H4 & H).
    assert (C : (_start ;; _setUri u ;; _initialize L) raw = Ret tt s3).
    { unfold mbind. rewrite H1, H2. exact H3. }
    apply constructed_unbound in C. destruct C as [C _].
    apply (bind_as_keeps_invariant s4 st usr pw false).
    + unfold bound_has_cred.
      destruct (negb (v =? 0)).
      * apply _setVersion_returns in H4. subst s4. cbn. rewrite C. discriminate.
      * inversion H4; subst. rewrite C. discriminate.
    + rewrite H. reflexivity.
  - exact (bind_keeps_invariant st st' rebind IH H).
  - exact (bind_as_keeps_invariant st st' usr pw rebind IH H).
  - unfold setPageSize, assign in H. cbn in H. inversion H; subst.
    exact IH.
  - unfold bound_has_cred in *.
    apply query_keeps_bind_state in H. destruct H as [-> ->]. exact IH.
  - unfold bound_has_cred in *.
    apply query_keeps_bind_state in H. destruct H as [-> ->]. exact IH.
  - unfold bound_has_cred in *.
    apply fetch_frame in H. unfold same_outside_paging in H.
    destruct H as (_ & _ & _ & _ & _ & _ & _ & _ & _ & _ & -> & ->). exact IH.
  - apply getAttribute_keeps_object in H. subst st'. exact IH.
Qed.

(** [_bind]: one handshake with the stored identity; the object is bound
    when the server accepts, and the server's message is thrown otherwise. *)
Lemma _bind_handshake (st : ldapReader) :
  let rc := ldap_sasl_bind_s L (connection st) (bindUser st) (bindCred st) in
  let st1 := record_call (call_sasl_bind (bindUser st) (bindCred st)) st in
  _bind L st =
    if rc =? LDAP_SUCCESS
    then Ret tt (set_isBinded true st1)
    else Throw (ldap_err2string L rc) st1.
Proof.
  unfold _bind, mbind, this, assign, throw. cbn.
  destruct (_ =? _); reflexivity.
Qed.

Lemma _setCred_returns (st : ldapReader) (user pass : string) :
  _setCred user pass st = Ret tt (stored_cred user pass st).
Proof.
  unfold _setCred, stored_cred, cred_of, mbind, get, assign, ret.
  destruct (isCredExist st); reflexivity.
Qed.

(** Past the guard, [bind(user, pass, rebind)] stores the credentials and
    performs the handshake with them. *)
Lemma bind_as_runs (st : ldapReader) (user pass : string) (rebind : bool) :
  isBinded st = false \/ rebind = true ->
  bind_as L user pass rebind st =
    let st1 := record_call (call_sasl_bind (Some user) (cred_of pass))
                 (stored_cred user pass st) in
    if ldap_sasl_bind_s L (connection st) (Some user) (cred_of pass) =? LDAP_SUCCESS
    then Ret tt (set_isBinded true st1)
    else Throw (ldap_err2string L
                  (ldap_sasl_bind_s L (connection st) (Some user) (cred_of pass)))
           st1.
Proof.
  intros Hmay.
  assert (Hpass : isBinded st && negb rebind = false).
  { destruct Hmay as [-> | ->]; [reflexivity|apply andb_false_r]. }
  unfold bind_as, mbind at 1, get. rewrite Hpass.
  unfold mbind at 1. rewrite _setCred_returns.
  rewrite _bind_handshake. reflexivity.
Qed.

(** C4.  For every object of a session:
    - [bind] (either overload) without [rebind] on a bound object throws
      "Already binded" and changes nothing;
    - [bind(rebind)] on an object without credentials throws
      "Auth parameters doesn't exist" and changes nothing;
    - otherwise (not bound, or [rebind] requested, and credentials present)
      [bind(rebind)] performs one handshake with the stored identity, which
      it leaves as it is: the object is bound when the server accepts; when
      it rejects, the server's message is thrown and the bound flag stays as
      it was;
    - [bind(user, pass, rebind)] on an object that is not bound, or with
      [rebind] requested, stores [user] and [pass] as the identity of the
      object and performs one handshake with them: the object is bound when
      the server accepts; when it rejects, the server's message is thrown
      and the bound flag stays as it was.  So [bind(user, pass, true)] on a
      bound object, the server accepting, returns with the object bound and
      the identity replaced.
    In both handshake cases the object after the call is given in full: no
    other member changes. *)
Theorem bind_contract (st : ldapReader) :
  session L st ->
  (isBinded st = true ->
   bind L false st = Throw "Already binded" st /\
   forall user pass, bind_as L user pass false st = Throw "Already binded" st) /\
  (isCredExist st = false ->
   forall rebind, bind L rebind st = Throw "Auth parameters doesn't exist" st) /\
  (forall rebind,
     isBinded st = false \/ rebind = true ->
     isCredExist st = true ->
     let rc := ldap_sasl_bind_s L (connection st) (bindUser st) (bindCred st) in
     exists st',
       connection st' = call_sasl_bind (bindUser st) (bindCred st) :: connection st /\
       bindUser st' = bindUser st /\ bindCred st' = bindCred st /\
       isCredExist st' = true /\
       ((rc = LDAP_SUCCESS /\ bind L rebind st = Ret tt st' /\ isBinded st' = true /\
         st' = set_isBinded true
                 (record_call (call_sasl_bind (bindUser st) (bindCred st)) st)) \/
        (rc <> LDAP_SUCCESS /\ bind L rebind st = Throw (ldap_err2string L rc) st' /\
         isBinded st' = isBinded st /\
         st' = record_call (call_sasl_bind (bindUser st) (bindCred st)) st))) /\
  (forall user pass rebind,
     isBinded st = false \/ rebind = true ->
     let rc := ldap_sasl_bind_s L (connection st) (Some user) (cred_of pass) in
     exists st',
       connection st' = call_sasl_bind (Some user) (cred_of pass) :: connection st /\
       bindUser st' = Some user /\ bindCred st' = cred_of pass /\
       isCredExist st' = true /\
       ((rc = LDAP_SUCCESS /\ bind_as L user pass rebind st = Ret tt st' /\
         isBinded st' = true /\
         st' = set_isBinded true
                 (record_call (call_sasl_bind (Some user) (cred_of pass))
                    (stored_cred user pass st))) \/
        (rc <> LDAP_SUCCESS /\
         bind_as L user pass rebind st = Throw (ldap_err2string L rc) st' /\
         isBinded st' = isBinded st /\
         st' = record_call (call_sasl_bind (Some user) (cred_of pass))
                 (stored_cred user pass st)))).
Proof.
  intros Hsession.
  assert (Hinv := session_bound_has_cred st Hsession). unfold bound_has_cred in Hinv.
  split; [|split; [|split]].
  - intros Hbound. split.
    + unfold bind, mbind, get, throw. rewrite Hbound. reflexivity.
    + intros user pass. unfold bind_as, mbind, get, throw.
      rewrite Hbound. reflexivity.
  - intros Hcred rebind.
    assert (Hunbound : isBinded st = false).
    { destruct (isBinded st); [|reflexivity].
      rewrite (Hinv eq_refl) in Hcred. discriminate. }
    unfold bind, mbind, get, throw. rewrite Hunbound. cbn. rewrite Hcred.
    reflexivity.
  - intros rebind Hmay Hcred rc.
    assert (Hpass : isBinded st && negb rebind = false).
    { destruct Hmay as [-> | ->]; [reflexivity|apply andb_false_r]. }
    assert (Hbind : bind L rebind st = _bind L st).
    { unfold bind, mbind, get, throw. rewrite Hpass. cbn beta.
      rewrite Hcred. reflexivity. }
    rewrite Hbind, _bind_handshake. fold rc.
    destruct (rc =? LDAP_SUCCESS) eqn:Hrc.
    + exists (set_isBinded true
                (record_call (call_sasl_bind (bindUser st) (bindCred st)) st)).
      do 3 (split; [reflexivity|]). split; [exact Hcred|].
      left. apply Z.eqb_eq in Hrc. auto.
    + exists (record_call (call_sasl_bind (bindUser st) (bindCred st)) st).
      do 3 (split; [reflexivity|]). split; [exact Hcred|].
      right. apply Z.eqb_neq in Hrc. auto.
  - intros user pass rebind Hmay rc.
    rewrite (bind_as_runs st user pass rebind Hmay). cbn zeta. fold rc.
    destruct (rc =? LDAP_SUCCESS) eqn:Hrc.
    + exists (set_isBinded true
                (record_call (call_sasl_bind (Some user) (cred_of pass))
                   (stored_cred user pass st))).
      do 4 (split; [reflexivity|]).
      left. apply Z.eqb_eq in Hrc. auto.
    + exists (record_call (call_sasl_bind (Some user) (cred_of pass))
                (stored_cred user pass st)).
      do 4 (split; [reflexivity|]).
      right. apply Z.eqb_neq in Hrc. auto.
Qed.

End Binding.

Lemma connected_session : session Stub.lib Stub.connected.
Proof. apply (session_new_uri Stub.lib Stub.zeroed Stub.serverUri). reflexivity. Qed.

Lemma bound_session : session Stub.lib Stub.bound.
Proof.
  apply (session_bind_as Stub.lib Stub.connected Stub.bindUser "Password" false).
  - exact connected_session.
  - reflexivity.
Qed.

Lemma scenario_bind :
  ldap_sasl_bind_s Stub.lib (connection Stub.bound)
    (Some "cn=admin,dc=example,dc=org") (cred_of "Secret") = LDAP_SUCCESS /\
  ldap_sasl_bind_s Stub.lib (connection Stub.connected)
    (Some "cn=admin,dc=example,dc=org") (cred_of "") <> LDAP_SUCCESS.
Proof. split; [vm_compute; reflexivity|vm_compute; discriminate]. Qed.

Lemma bind_contract_witness :
  bind Stub.lib false Stub.bound = Throw "Already binded" Stub.bound /\
  bind Stub.lib false Stub.connected
    = Throw "Auth parameters doesn't exist" Stub.connected /\
  (exists st',
     bind_as Stub.lib "cn=admin,dc=example,dc=org" "Secret" true Stub.bound
       = Ret tt st' /\
     isBinded st' = true /\
     bindUser st' = Some "cn=admin,dc=example,dc=org" /\
     bindCred st' = cred_of "Secret") /\
  (exists st',
     bind_as Stub.lib "cn=admin,dc=example,dc=org" "" false Stub.connected
       = Throw (ldap_err2string Stub.lib
                  (ldap_sasl_bind_s Stub.lib (connection Stub.connected)
                     (Some "cn=admin,dc=example,dc=org") (cred_of "")))
           st' /\
     isBinded st' = isBinded Stub.connected /\
     connection st'
       = call_sasl_bind (Some "cn=admin,dc=example,dc=org") (cred_of "")
         :: connection Stub.connected).
Proof.
  destruct (bind_contract Stub.lib Stub.bound bound_session)
    as (Halready & _ & _ & Hrebind).
  destruct (bind_contract Stub.lib Stub.connected connected_session)
    as (_ & Hnocred & _ & Hfirst).
  destruct scenario_bind as (Haccept & Hreject).
  split; [exact (proj1 (Halready eq_refl))|].
  split; [exact (Hnocred eq_refl false)|].
  split.
  - destruct (Hrebind "cn=admin,dc=example,dc=org" "Secret" true (or_intror eq_refl))
      as (st' & _ & Hu & Hc & _ & [(_ & Hret & Hb & _)|(Hrc & _)]).
    + exists st'. auto.
    + exfalso. exact (Hrc Haccept).
  - destruct (Hfirst "cn=admin,dc=example,dc=org" "" false (or_introl eq_refl))
      as (st' & Hconn & _ & _ & _ & [(Hrc & _)|(_ & Hthrow & Hb & _)]).
    + exfalso. exact (Hreject Hrc).
    + exists st'. auto.
Defined.

(** ** A query after a query *)

Section Requery.

Variable L : LdapLibrary.

(** A [query] that returns has stored its arguments and run one page
    execution on the object so prepared. *)
Lemma query_returns (st st' : ldapReader) (filter base : string) (attrNum : N)
    (va : list string) :
  query L filter base attrNum va st = Ret tt st' ->
  exists names,
    (if (0 <? attrNum)%N
     then (attrNum <= _DEFAULT_MAX_NUMBER_OF_ATTRIBUTES)%N /\
          va_names (N.to_nat attrNum) va = names
     else names = None) /\
    (names = None -> attrNum = 0%N) /\
    _query L (stored_query filter base names st) = Ret tt st'.
Proof.
  unfold query, stored_query, mbind, assign, get, ret, throw, undefined.
  intros H. cbn in H.
  destruct (0 <? attrNum)%N eqn:Hpos.
  - destruct (_DEFAULT_MAX_NUMBER_OF_ATTRIBUTES <? attrNum)%N eqn:Hmax;
      [discriminate H|].
    apply N.ltb_ge in Hmax. apply N.ltb_lt in Hpos.
    destruct (va_names (N.to_nat attrNum) va) as [l|] eqn:Hva; [|discriminate H].
    exists (Some l). repeat split; try assumption; try discriminate.
    cbn in H |- *. destruct (result st); cbn in H |- *; exact H.
  - apply N.ltb_ge in Hpos.
    exists None. repeat split; try lia.
    cbn in H |- *. destruct (result st); cbn in H |- *; exact H.
Qed.

(** What [stored_query] keeps of the object. *)
Lemma stored_query_keeps (st : ldapReader) (filter base : string)
    (names : option (list string)) :
  let st0 := stored_query filter base names st in
  entry st0 = entry st /\ pageCookie st0 = pageCookie st /\
  pageSize st0 = pageSize st /\ isPagingCritical st0 = isPagingCritical st /\
  searchFilter st0 = Some filter /\ searchBase st0 = Some base /\
  requestedAttributes st0
    = match names with Some l => Some l | None => requestedAttributes st end /\
  searches (connection st0) = searches (connection st).
Proof.
  unfold stored_query. destruct names, (result st); cbn; repeat split.
Qed.

(** Any number of [fetch()] calls leaves the stored query alone. *)
Lemma fetched_frame (st st' : ldapReader) :
  fetched L st st' -> same_outside_paging st st'.
Proof.
  induction 1 as [st|st b st1 st2 Hfetch _ IH].
  - apply same_outside_paging_refl.
  - assert (F : same_outside_paging st st1)
      by (apply (fetch_frame L); rewrite Hfetch; reflexivity).
    unfold same_outside_paging in *.
    repeat match goal with H : _ /\ _ |- _ => destruct H end.
    repeat split; congruence.
Qed.

(** [query(filter, base)] never writes the attribute list. *)
Lemma query_all_keeps_attributes (st st' : ldapReader) (filter base : string) :
  state_after (query_all L filter base st) = Some st' ->
  requestedAttributes st' = requestedAttributes st.
Proof.
  unfold query_all, query, mbind, assign, get, ret, throw, undefined, record_call.
  intros H. cbn in H.
  destruct (result st);
    destruct (_query_effects L _ _ H) as [F _];
    unfold same_outside_paging in F; cbn in F; tauto.
Qed.

(** C9.  [query(filter, base)] leaves the stored attribute list as it is.
    So in a session where a query with [attrNum > 0] returned, followed by
    any number of [fetch()] calls, a [query(filter, base)] that returns has
    sent its search with the names of the earlier query as attribute list,
    not with the NULL list that asks for all attributes. *)
Theorem query_all_reuses_attribute_list :
  (forall st filter base st',
     state_after (query_all L filter base st) = Some st' ->
     requestedAttributes st' = requestedAttributes st) /\
  (forall st0 filter1 base1 attrNum va st1 st2 filter2 base2 st3,
     (0 < attrNum)%N ->
     query L filter1 base1 attrNum va st0 = Ret tt st1 ->
     fetched L st1 st2 ->
     query_all L filter2 base2 st2 = Ret tt st3 ->
     exists names rq,
       va_names (N.to_nat attrNum) va = Some names /\
       List.length names = N.to_nat attrNum /\
       searches (connection st3) = rq :: searches (connection st2) /\
       rq_attrs rq = Some names /\
       rq_filter rq = Some filter2 /\ rq_base rq = Some base2 /\
       requestedAttributes st3 = Some names).
Proof.
  split; [intros st filter base st'; apply query_all_keeps_attributes|].
  intros st0 filter1 base1 attrNum va st1 st2 filter2 base2 st3
    Hpos Hq1 Hfetched Hq2.
  (* the first query stored the names *)
  apply query_returns in Hq1. destruct Hq1 as (names1 & Hnames1 & Hnone & Hpage1).
  apply N.ltb_lt in Hpos. rewrite Hpos in Hnames1. destruct Hnames1 as [_ Hva].
  destruct names1 as [names|]; [|apply N.ltb_lt in Hpos; specialize (Hnone eq_refl); lia].
  assert (Hst1 : requestedAttributes st1 = Some names).
  { assert (S : state_after (_query L (stored_query filter1 base1 (Some names) st0))
                = Some st1) by (rewrite Hpage1; reflexivity).
    destruct (_query_effects L _ _ S) as [F _].
    unfold same_outside_paging in F.
    destruct (stored_query_keeps st0 filter1 base1 (Some names))
      as (_ & _ & _ & _ & _ & _ & Hattrs & _).
    cbn zeta in Hattrs. rewrite <- Hattrs. tauto. }
  (* the fetches kept them *)
  assert (Hst2 : requestedAttributes st2 = Some names).
  { apply fetched_frame in Hfetched. unfold same_outside_paging in Hfetched.
    rewrite <- Hst1. tauto. }
  (* the second query sent them *)
  unfold query_all in Hq2. apply query_returns in Hq2.
  destruct Hq2 as (names2 & Hnames2 & _ & Hpage2).
  cbn in Hnames2. subst names2.
  destruct (stored_query_keeps st2 filter2 base2 None)
    as (_ & _ & _ & _ & Hf & Hb & Hattrs & Hsent).
  cbn zeta in Hf, Hb, Hattrs, Hsent.
  apply _query_returns in Hpage2.
  destruct Hpage2 as (res & c & rest & count & cookie & _ & _ & _ & _ & Hst3).
  exists names, (page_request (stored_query filter2 base2 None st2)).
  split; [exact Hva|]. split.
  { clear - Hva. revert va names Hva.
    induction (N.to_nat attrNum) as [|k IH]; intros va names Hva; cbn in Hva.
    - inversion Hva. reflexivity.
    - destruct va as [|buf va']; [discriminate|].
      destruct (va_names k va') as [l|] eqn:E; [|discriminate].
      inversion Hva; subst. cbn. f_equal. apply (IH va'). exact E. }
  rewrite Hst3. unfold page_received, page_request. cbn.
  rewrite Hf, Hb, Hattrs, Hsent, Hst2. repeat split.
Qed.

End Requery.

(** The scenario of the specification, step by step. *)
Lemma scenario_query :
  query Stub.lib Stub.filter Stub.base 1 ["sAMAccountName"] Stub.sized
    = Ret tt Stub.queried.
Proof. vm_compute. reflexivity. Qed.

Lemma scenario_fetch : fetch Stub.lib Stub.queried = Ret true Stub.positioned.
Proof. vm_compute. reflexivity. Qed.

Lemma scenario_requery :
  query_all Stub.lib Stub.filter Stub.base Stub.positioned = Ret tt Stub.requeried.
Proof. vm_compute. reflexivity. Qed.

Lemma query_all_reuses_attribute_list_witness :
  exists rq,
    searches (connection Stub.requeried)
      = rq :: searches (connection Stub.positioned) /\
    rq_attrs rq = Some ["sAMAccountName"] /\
    requestedAttributes Stub.requeried = Some ["sAMAccountName"].
Proof.
  destruct (proj2 (query_all_reuses_attribute_list Stub.lib)
              Stub.sized Stub.filter Stub.base 1%N ["sAMAccountName"]
              Stub.queried Stub.positioned Stub.filter Stub.base Stub.requeried
              eq_refl scenario_query
              (fetched_more Stub.lib Stub.queried true Stub.positioned
                 Stub.positioned scenario_fetch
                 (fetched_none Stub.lib Stub.positioned))
              scenario_requery)
    as (names & rq & Hva & _ & Hsent & Hattrs & _ & _ & Hstored).
  cbn in Hva. injection Hva as <-.
  exists rq. split; [exact Hsent|]. split; [exact Hattrs|exact Hstored].
Defined.

Section RequeryCursor.

Variable L : LdapLibrary.

(** The cookie of the first control of [page_request] is the stored one. *)
Lemma page_request_cookie (st : ldapReader) :
  request_cookie (page_request st) = Some (berval_bytes (pageCookie st)).
Proof. reflexivity. Qed.

(** The check changes no outcome: while the blocks a call reads or releases
    are allocated, the checked call ends as the member function does. *)
Lemma fetch_checked_allocated (st : ldapReader) (h : Storage) :
  result_released h = false -> entry_released h = false ->
  fst (fetch_checked L st h) = fetch L st.
Proof.
  intros Hres Hent. unfold fetch_checked.
  destruct (result st); [|reflexivity].
  rewrite Hres, Hent. destruct (entry st); cbn beta iota zeta;
    destruct (fetch L st); reflexivity.
Qed.

Lemma query_checked_allocated (st : ldapReader) (h : Storage)
    (filter base : string) (attrNum : N) (va : list string) :
  result_released h = false ->
  fst (query_checked L filter base attrNum va st h)
    = query L filter base attrNum va st.
Proof.
  intros Hres. unfold query_checked. rewrite Hres.
  destruct (query L filter base attrNum va st) as [[] st'|what st'|];
    cbn [state_after]; [| |reflexivity];
    destruct (released_during st st'); reflexivity.
Qed.

(** What the calls recorded on the handle say of a call. *)
Lemma searched_during_same (st st' : ldapReader) :
  connection st' = connection st -> searched_during st st' = false.
Proof. intros H. unfold searched_during. rewrite H. apply Nat.ltb_irrefl. Qed.

Lemma searched_during_search (st st' : ldapReader) (rq : SearchRequest) :
  connection st' = call_search rq :: connection st -> searched_during st st' = true.
Proof.
  intros H. unfold searched_during. rewrite H. cbn [searches List.length].
  apply Nat.ltb_lt. lia.
Qed.

(** A [query] that returns on an object with a result has released that
    result and then sent one search. *)
Lemma query_returns_calls (st st' : ldapReader) (filter base : string)
    (attrNum : N) (va : list string) (old : LDAPMessage) :
  result st = Some old ->
  query L filter base attrNum va st = Ret tt st' ->
  exists names,
    _query L (stored_query filter base names st) = Ret tt st' /\
    connection st'
      = call_search (page_request (stored_query filter base names st))
        :: call_memfree old :: connection st.
Proof.
  intros Hold Hq.
  apply query_returns in Hq. destruct Hq as (names & _ & _ & Hpage).
  exists names. split; [exact Hpage|].
  apply _query_returns in Hpage.
  destruct Hpage as (res & c & rest & count & cookie & _ & _ & _ & _ & ->).
  unfold page_received. cbn. f_equal.
  unfold stored_query. rewrite Hold. destruct names; reflexivity.
Qed.

(** Under the check that [query] returns too, unless the result it releases
    was released before; the entry is released with it when it is the head. *)
Lemma query_checked_returns (st st' : ldapReader) (h : Storage)
    (filter base : string) (attrNum : N) (va : list string) (old : LDAPMessage) :
  result st = Some old ->
  result_released h = false ->
  query L filter base attrNum va st = Ret tt st' ->
  query_checked L filter base attrNum va st h
    = (Ret tt st',
       mkStorage false (entry_is_head h)
         (entry_released h || (entry_is_head h && is_set (entry st)))).
Proof.
  intros Hold Hlive Hq.
  destruct (query_returns_calls st st' filter base attrNum va old Hold Hq)
    as (names & _ & Hconn).
  unfold query_checked. rewrite Hq. cbn [state_after].
  assert (Hrel : released_during st st' = true).
  { unfold released_during. rewrite Hconn. cbn [releases List.length].
    apply Nat.ltb_lt. lia. }
  assert (Hsea : searched_during st st' = true).
  { unfold searched_during. rewrite Hconn. cbn [searches List.length].
    apply Nat.ltb_lt. lia. }
  rewrite Hrel, Hsea, Hlive. reflexivity.
Qed.

(** A [fetch()] from an entry that sent no search leaves nothing released
    and an entry, if any, past the head. *)
Lemma after_fetch_same (st st' : ldapReader) (h : Storage) (cur : EntryRef) :
  entry st = Some cur -> connection st' = connection st ->
  result_released h = false ->
  after_fetch st st' h = intact.
Proof.
  intros Hcur Hconn Hlive. unfold after_fetch.
  rewrite Hcur, (searched_during_same st st' Hconn), Hlive. reflexivity.
Qed.

(** C10, as the code has it.  On an object positioned at an entry of its
    result, with nothing released so far, a [query] that returns
    - passes the old result to [ldap_memfree] and then sends one search,
      which carries the cookie the previous query left: the cookie is not
      reset before the page is run;
    - replaces result, cookie, count and flag by what the response holds;
    - leaves [entry] where it was, pointing into the old chain.
    The next [fetch()] passes that pointer to [ldap_next_entry].  When the
    cursor was at the first entry, the pointer is the block that was
    released and the call has no defined behaviour.  When it was further
    on, the call advances in the old chain: it returns true at the
    successor; without a successor it returns false when the new response
    announced no further page, and otherwise asks for the page after the
    new one and positions at its first entry, so the entries the second
    query received are passed over. *)
Theorem query_keeps_cursor (st st' : ldapReader) (h : Storage)
    (filter base : string) (attrNum : N) (va : list string)
    (old : LDAPMessage) (cur : EntryRef) :
  result st = Some old -> entry st = Some cur ->
  result_released h = false -> entry_released h = false ->
  query L filter base attrNum va st = Ret tt st' ->
  let h' := mkStorage false (entry_is_head h) (entry_is_head h) in
  query_checked L filter base attrNum va st h = (Ret tt st', h') /\
  entry st' = Some cur /\
  (exists rq res c rest count cookie,
     connection st' = call_search rq :: call_memfree old :: connection st /\
     request_cookie rq = Some (berval_bytes (pageCookie st)) /\
     result st' = Some res /\
     msg_controls res = Some (c :: rest) /\
     ldctl_value c = Some (count, cookie) /\
     pageCookie st' = berval_of_bytes cookie /\
     resultCount st' = count /\
     isMorePageAvailable st' = (0 <? strlen cookie)%nat) /\
  (entry_is_head h = true -> fetch_checked L st' h' = (Undefined, h')) /\
  (entry_is_head h = false ->
   (forall nxt, ldap_next_entry cur = Some nxt ->
      fetch_checked L st' h' = (Ret true (set_entry (Some nxt) st'), intact)) /\
   (ldap_next_entry cur = None -> isMorePageAvailable st' = false ->
      fetch_checked L st' h' = (Ret false (set_entry None st'), intact)) /\
   (ldap_next_entry cur = None -> isMorePageAvailable st' = true ->
      (forall st2, _query L (set_entry None st') = Ret tt st2 ->
         exists res2,
           result st2 = Some res2 /\
           connection st2 = call_search (page_request st') :: connection st' /\
           fetch_checked L st' h'
             = match ldap_first_entry res2 with
               | Some e => (Ret true (set_entry (Some e) st2),
                            mkStorage false true false)
               | None => (Ret false (set_entry None st2), intact)
               end) /\
      (forall what st2, _query L (set_entry None st') = Throw what st2 ->
         fst (fetch_checked L st' h') = Throw what st2) /\
      (_query L (set_entry None st') = Undefined ->
         fst (fetch_checked L st' h') = Undefined))).
Proof.
  intros Hold Hcur Hlive Hent Hq h'.
  assert (Hchecked := query_checked_returns st st' h filter base attrNum va old
                        Hold Hlive Hq).
  rewrite Hent, Hcur in Hchecked. cbn [is_set orb] in Hchecked.
  rewrite andb_true_r in Hchecked. fold h' in Hchecked.
  destruct (query_returns_calls st st' filter base attrNum va old Hold Hq)
    as (names & Hpage & Hconn).
  destruct (stored_query_keeps st filter base names)
    as (Hent0 & Hcookie & _).
  cbn zeta in Hent0, Hcookie.
  assert (Hent' : entry st' = Some cur).
  { rewrite (_query_keeps_entry L _ _ Hpage), Hent0. exact Hcur. }
  apply _query_returns in Hpage.
  destruct Hpage as (res & c & rest & count & cookie & _ & _ & Hctl & Hval & Hst').
  assert (Hres' : result st' = Some res) by (rewrite Hst'; reflexivity).
  split; [exact Hchecked|]. split; [exact Hent'|]. split; [|split].
  - exists (page_request (stored_query filter base names st)),
      res, c, rest, count, cookie.
    rewrite page_request_cookie, Hcookie.
    split; [exact Hconn|]. rewrite Hst'. unfold page_received. cbn.
    repeat split; assumption.
  - intros Hhead. unfold fetch_checked. rewrite Hres', Hent'.
    subst h'. cbn [entry_released]. rewrite Hhead. reflexivity.
  - intros Hhead.
    assert (Hstep : forall o,
              fetch L st' = o ->
              fetch_checked L st' h'
                = match state_after o with
                  | None => (Undefined, h')
                  | Some st'' => (o, after_fetch st' st'' h')
                  end).
    { intros o <-. unfold fetch_checked. rewrite Hres', Hent'.
      subst h'. cbn [entry_released]. rewrite Hhead. reflexivity. }
    split; [|split].
    + intros nxt Hnext.
      rewrite (Hstep _ (fetch_next L st' res cur nxt Hres' Hent' Hnext)).
      cbn [state_after].
      rewrite (after_fetch_same st' (set_entry (Some nxt) st') h' cur Hent'
                 eq_refl eq_refl).
      reflexivity.
    + intros Hnext Hmore.
      rewrite (Hstep _ (fetch_last L st' res cur Hres' Hent' Hnext Hmore)).
      cbn [state_after].
      rewrite (after_fetch_same st' (set_entry None st') h' cur Hent'
                 eq_refl eq_refl).
      reflexivity.
    + intros Hnext Hmore.
      assert (Hpage := fetch_next_page L st' res cur Hres' Hent' Hnext Hmore).
      split; [|split].
      * intros st2 Hq2. rewrite Hq2 in Hpage.
        destruct (fetch_after_page L (set_entry None st') st2 eq_refl Hq2)
          as (res2 & Hres2 & Hfetch2).
        assert (Hconn2 : connection st2
                         = call_search (page_request st') :: connection st').
        { apply _query_returns in Hq2.
          destruct Hq2 as (r & c2 & rest2 & n2 & k2 & _ & _ & _ & _ & ->).
          reflexivity. }
        exists res2. split; [exact Hres2|]. split; [exact Hconn2|].
        rewrite Hfetch2 in Hpage. rewrite (Hstep _ Hpage).
        unfold after_fetch. rewrite Hent'.
        destruct (ldap_first_entry res2) as [e|]; cbn [state_after].
        -- rewrite (searched_during_search st' (set_entry (Some e) st2) _ Hconn2).
           reflexivity.
        -- rewrite (searched_during_search st' (set_entry None st2) _ Hconn2).
           reflexivity.
      * intros what st2 Hq2. rewrite Hq2 in Hpage.
        rewrite (Hstep _ Hpage). reflexivity.
      * intros Hq2. rewrite Hq2 in Hpage.
        rewrite (Hstep _ Hpage). reflexivity.
Qed.

End RequeryCursor.

Lemma scenario_positioned :
  entry Stub.positioned = Some (mkRef Stub.alice [Stub.bob]).
Proof. vm_compute. reflexivity. Qed.

Lemma scenario_requery_no_names :
  query Stub.lib Stub.filter Stub.base 0 [] Stub.positioned = Ret tt Stub.requeried.
Proof. vm_compute. reflexivity. Qed.

Lemma scenario_positioned_result :
  result Stub.positioned
    = Some (Stub.response [Stub.alice; Stub.bob] 3 (Stub.cookie_at 2)).
Proof. vm_compute. reflexivity. Qed.

Lemma scenario_checked_fetch :
  fetch_checked Stub.lib Stub.queried intact
    = (Ret true Stub.positioned, mkStorage false true false).
Proof. vm_compute. reflexivity. Qed.

Lemma scenario_five :
  result Stub.five_second
    = Some (Stub.response [Stub.alice; Stub.bob] 5 (Stub.cookie_at 2)) /\
  entry Stub.five_second = Some (mkRef Stub.bob []) /\
  isMorePageAvailable Stub.five_requeried = true /\
  result Stub.five_next = Some (Stub.response [Stub.erin] 5 []).
Proof. repeat split; vm_compute; reflexivity. Qed.

Lemma scenario_checked_five :
  fetch_checked (Stub.directory Stub.five_users)
    (Stub.the_object
       (fetch (Stub.directory Stub.five_users)
          (Stub.the_object
             (query_all (Stub.directory Stub.five_users) Stub.filter Stub.base
                Stub.sized))))
    (mkStorage false true false)
    = (Ret true Stub.five_second, intact).
Proof. vm_compute. reflexivity. Qed.

Lemma scenario_five_requery :
  query (Stub.directory Stub.five_users) Stub.filter Stub.base 0 []
    Stub.five_second
    = Ret tt Stub.five_requeried.
Proof. vm_compute. reflexivity. Qed.

Lemma scenario_five_next :
  _query (Stub.directory Stub.five_users) (set_entry None Stub.five_requeried)
    = Ret tt Stub.five_next.
Proof. vm_compute. reflexivity. Qed.

Lemma query_keeps_cursor_witness :
  (query_checked Stub.lib Stub.filter Stub.base 0 [] Stub.positioned
     (mkStorage false true false)
     = (Ret tt Stub.requeried, mkStorage false true true) /\
   entry Stub.requeried = Some (mkRef Stub.alice [Stub.bob]) /\
   fetch_checked Stub.lib Stub.requeried (mkStorage false true true)
     = (Undefined, mkStorage false true true)) /\
  (query_checked (Stub.directory Stub.five_users) Stub.filter Stub.base 0 []
     Stub.five_second intact
     = (Ret tt Stub.five_requeried, intact) /\
   entry Stub.five_requeried = Some (mkRef Stub.bob []) /\
   fetch_checked (Stub.directory Stub.five_users) Stub.five_requeried intact
     = (Ret true (set_entry (Some (mkRef Stub.erin [])) Stub.five_next),
        mkStorage false true false)).
Proof.
  split.
  - pose proof (query_keeps_cursor Stub.lib Stub.positioned Stub.requeried
                  (mkStorage false true false) Stub.filter Stub.base 0%N []
                  (Stub.response [Stub.alice; Stub.bob] 3 (Stub.cookie_at 2))
                  (mkRef Stub.alice [Stub.bob])
                  scenario_positioned_result scenario_positioned eq_refl eq_refl
                  scenario_requery_no_names) as H.
    cbv zeta in H. cbn [entry_is_head] in H.
    destruct H as (Hq & Hent & _ & Hhead & _).
    split; [exact Hq|]. split; [exact Hent|]. exact (Hhead eq_refl).
  - destruct scenario_five as (Hres & Hcur & Hmore & Hres2).
    pose proof (query_keeps_cursor (Stub.directory Stub.five_users)
                  Stub.five_second Stub.five_requeried intact
                  Stub.filter Stub.base 0%N []
                  (Stub.response [Stub.alice; Stub.bob] 5 (Stub.cookie_at 2))
                  (mkRef Stub.bob []) Hres Hcur eq_refl eq_refl
                  scenario_five_requery) as H.
    cbv zeta in H. cbn [entry_is_head intact] in H.
    destruct H as (Hq & Hent & _ & _ & Hinner).
    split; [exact Hq|]. split; [exact Hent|].
    destruct (Hinner eq_refl) as (_ & _ & Hpage).
    destruct (Hpage eq_refl Hmore) as (Hnext & _).
    destruct (Hnext Stub.five_next scenario_five_next)
      as (res2 & Hres2' & _ & Hfetch).
    rewrite Hres2 in Hres2'. injection Hres2' as <-.
    exact Hfetch.
Defined.

(** C10 as stated fails in its frame: the second query of the scenario
    returns, and the cookie and the flag it leaves are those of its own
    response, not the ones the first query left. *)
Lemma query_replaces_cookie :
  query_all Stub.lib Stub.filter Stub.base Stub.positioned
    = Ret tt Stub.requeried /\
  entry Stub.positioned = Some (mkRef Stub.alice [Stub.bob]) /\
  pageCookie Stub.positioned = berval_of_bytes (Stub.cookie_at 2) /\
  pageCookie Stub.requeried = berval_of_bytes [] /\
  pageCookie Stub.requeried <> pageCookie Stub.positioned /\
  isMorePageAvailable Stub.requeried <> isMorePageAvailable Stub.positioned.
Proof.
  repeat split; try (vm_compute; reflexivity); vm_compute; discriminate.
Qed.

(** ** Where the code departs from the specification *)

Section Departures.

Variable L : LdapLibrary.

(** The flag after a page execution is the test [strlen(bv_val) > 0] on the
    cookie of the response. *)
Lemma _query_flag (st st' : ldapReader) :
  _query L st = Ret tt st' ->
  exists cookie,
    pageCookie st' = berval_of_bytes cookie /\
    isMorePageAvailable st' = (0 <? strlen cookie)%nat.
Proof.
  intros H. apply _query_returns in H.
  destruct H as (res & c & rest & count & cookie & _ & _ & _ & _ & ->).
  exists cookie. split; reflexivity.
Qed.

(** The request of a page execution carries the stored cookie, and the
    constructor stores none: the member keeps what the storage held. *)
Lemma new_uri_keeps_raw_cookie (raw st : ldapReader) (serverUri : string) :
  new_uri L serverUri raw = Ret tt st -> pageCookie st = pageCookie raw.
Proof.
  intros H. run_methods.
  repeat (inner_hyp_match H; try discriminate H).
  inversion H; subst; clear H. reflexivity.
Qed.

End Departures.

(** [strlen] is positive exactly on a buffer whose first byte is not NUL. *)
Lemma strlen_positive (s : list byte) :
  (0 <? strlen s)%nat = true <-> exists b rest, s = b :: rest /\ b <> x00.
Proof.
  destruct s as [|b rest]; cbn [strlen].
  - split; [discriminate|]. intros (b & rest & H & _). discriminate.
  - destruct (Byte.eqb b x00) eqn:E.
    + apply Byte.byte_dec_bl in E. subst b. split; [discriminate|].
      intros (b & rest' & H & Hb). inversion H; subst. contradiction.
    + split.
      * intros _. exists b, rest. split; [reflexivity|].
        intros ->. cbv in E. discriminate.
      * reflexivity.
Qed.

(** C1, at the scenario of the specification (three entries, page size
    two): the calls of [fetch()] return true, true, true, false, and the
    fifth call returns true again, positioned at the first entry of the last
    page. *)
Theorem fetch_true_after_false :
  query Stub.lib Stub.filter Stub.base 1 ["sAMAccountName"] Stub.sized
    = Ret tt Stub.queried /\
  fst (fetch_times Stub.lib 5 Stub.queried) = [true; true; true; false; true] /\
  option_map entry (snd (fetch_times Stub.lib 5 Stub.queried))
    = Some (Some (mkRef Stub.carol [])).
Proof.
  repeat split; vm_compute; reflexivity.
Qed.

(** C2, at a response whose cookie is the two octets 00 01: the cookie is
    not empty, the flag is false, and the second page is never asked for. *)
Theorem binary_cookie_clears_flag :
  query_all Stub.binary_directory Stub.filter Stub.base Stub.connected
    = Ret tt Stub.binary_queried /\
  pageCookie Stub.binary_queried = berval_of_bytes [x00; x01] /\
  berval_bytes (pageCookie Stub.binary_queried) <> [] /\
  isMorePageAvailable Stub.binary_queried = false /\
  fst (fetch_times Stub.binary_directory 2 Stub.binary_queried) = [true; false] /\
  option_map (fun st => List.length (searches (connection st)))
    (snd (fetch_times Stub.binary_directory 2 Stub.binary_queried)) = Some 1%nat.
Proof.
  repeat split; try (vm_compute; reflexivity).
  vm_compute. discriminate.
Qed.

(** C3, at a second query issued before the first was exhausted: its first
    request carries the cookie of the first query's response.  And the first
    query of an object built on storage that is not zero carries what the
    storage held. *)
Theorem first_page_carries_stored_cookie :
  query_all Stub.lib Stub.filter Stub.base Stub.positioned
    = Ret tt Stub.requeried /\
  map request_cookie (searches (connection Stub.requeried))
    = [Some (Stub.cookie_at 2); Some []] /\
  Stub.cookie_at 2 <> [] /\
  map request_cookie (searches (connection Stub.dirty_queried))
    = [Some [x41; x42]].
Proof.
  repeat split; try (vm_compute; reflexivity).
  vm_compute. discriminate.
Qed.

(** ** Further properties of the cursor *)

Section CursorFacts.

Variable L : LdapLibrary.

(** X2.  Once the flag is off, no number of [fetch()] calls reaches the library:
    every call returns, the calls recorded on the connection stay the same,
    and the flag stays off. *)
Theorem fetch_never_asks_again (n : nat) (st : ldapReader) :
  isMorePageAvailable st = false ->
  exists bs st',
    fetch_times L n st = (bs, Some st') /\
    List.length bs = n /\
    connection st' = connection st /\
    isMorePageAvailable st' = false.
Proof.
  revert st. induction n as [|n IH]; intros st Hmore.
  - exists [], st. auto.
  - destruct (fetch_without_more_pages L st Hmore)
      as (b & st1 & Hfetch & Hconn & Hmore1 & _).
    destruct (IH st1 Hmore1) as (bs & st' & Htimes & Hlen & Hconn' & Hmore').
    exists (b :: bs), st'. cbn [fetch_times]. rewrite Hfetch, Htimes.
    cbn. repeat split; congruence.
Qed.

(** X3.  The flag a page execution leaves is on exactly when the cookie of the
    response has a first octet and that octet is not NUL. *)
Theorem more_pages_flag_reads_first_octet (st st' : ldapReader) :
  _query L st = Ret tt st' ->
  exists cookie,
    pageCookie st' = berval_of_bytes cookie /\
    (isMorePageAvailable st' = true <->
     exists b rest, cookie = b :: rest /\ b <> x00).
Proof.
  intros H. destruct (_query_flag L st st' H) as (cookie & Hcookie & Hflag).
  exists cookie. split; [exact Hcookie|].
  rewrite Hflag. apply strlen_positive.
Qed.

(** X4.  At the end of the last page, a first [fetch()] returns false and a
    second one returns true, positioned at the first entry of that page:
    [entry == NULL] stands both for "not started" and for "exhausted". *)
Theorem fetch_false_then_true (st : ldapReader) (res : LDAPMessage)
    (cur : EntryRef) (e : Entry) (rest : list Entry) :
  result st = Some res -> entry st = Some cur ->
  ldap_next_entry cur = None -> isMorePageAvailable st = false ->
  msg_entries res = e :: rest ->
  fetch_times L 2 st = ([false; true], Some (set_entry (Some (mkRef e rest)) st)).
Proof.
  intros Hres Hent Hnext Hmore Hpage.
  cbn [fetch_times].
  rewrite (fetch_last L st res cur Hres Hent Hnext Hmore).
  rewrite (fetch_first L (set_entry None st) res Hres eq_refl).
  unfold ldap_first_entry. rewrite Hpage. reflexivity.
Qed.

End CursorFacts.

Lemma scenario_at_last :
  result Stub.at_last = Some (Stub.response [Stub.carol] 3 []) /\
  entry Stub.at_last = Some (mkRef Stub.carol []) /\
  isMorePageAvailable Stub.at_last = false.
Proof. repeat split; vm_compute; reflexivity. Qed.

Lemma fetch_never_asks_again_witness :
  exists bs st',
    fetch_times Stub.lib 4 Stub.at_last = (bs, Some st') /\
    connection st' = connection Stub.at_last.
Proof.
  destruct (fetch_never_asks_again Stub.lib 4 Stub.at_last
              (proj2 (proj2 scenario_at_last)))
    as (bs & st' & Htimes & _ & Hconn & _).
  exists bs, st'. split; assumption.
Defined.

Lemma scenario_page : exists st', _query Stub.lib Stub.sized = Ret tt st'.
Proof. eexists. vm_compute. reflexivity. Qed.

Lemma more_pages_flag_reads_first_octet_witness :
  exists st' cookie,
    _query Stub.lib Stub.sized = Ret tt st' /\
    pageCookie st' = berval_of_bytes cookie /\
    (isMorePageAvailable st' = true <->
     exists b rest, cookie = b :: rest /\ b <> x00).
Proof.
  destruct scenario_page as (st' & Hpage).
  destruct (more_pages_flag_reads_first_octet Stub.lib Stub.sized st' Hpage)
    as (cookie & Hcookie & Hflag).
  exists st', cookie. auto.
Defined.

Lemma fetch_false_then_true_witness :
  fetch_times Stub.lib 2 Stub.at_last
    = ([false; true], Some (set_entry (Some (mkRef Stub.carol [])) Stub.at_last)).
Proof.
  destruct scenario_at_last as (Hres & Hent & Hmore).
  exact (fetch_false_then_true Stub.lib Stub.at_last
           (Stub.response [Stub.carol] 3 []) (mkRef Stub.carol [])
           Stub.carol [] Hres Hent eq_refl Hmore eq_refl).
Defined.

Lemma berval_bytes_of_bytes (s : list byte) :
  berval_bytes (berval_of_bytes s) = s.
Proof.
  unfold berval_bytes, berval_of_bytes. cbn.
  rewrite Nnat.Nat2N.id. apply firstn_all.
Qed.

(** ** Reading a whole directory page by page *)

Section PageExecutionSucceeds.

Variable L : LdapLibrary.

(** The converse of [_query_returns]: when the library answers the request
    with a result whose first control decodes, the page execution returns. *)
Lemma _query_succeeds (st : ldapReader) (res : LDAPMessage) (c : LDAPControl)
    (rest : list LDAPControl) (count : Z) (cookie : list byte) :
  ldap_create_page_control L (connection st) (pageSize st) (pageCookie st)
    (isPagingCritical st) = 0 ->
  ldap_search_ext_s L (connection st) (page_request st)
    = (LDAP_SUCCESS, Some res) ->
  msg_parse_rc res = LDAP_SUCCESS ->
  msg_controls res = Some (c :: rest) ->
  ldctl_value c = Some (count, cookie) ->
  _query L st = Ret tt (page_received st res count cookie).
Proof.
  unfold page_request, page_received.
  intros Hcreate Hsearch Hrc Hctl Hval.
  run_methods.
  destruct (controls st); simpl; destruct (pageControl st); simpl;
    rewrite Hcreate; simpl; rewrite Hsearch; simpl; rewrite Hrc, Hctl; simpl;
    rewrite Hval; simpl; destruct (0 <? strlen cookie)%nat; reflexivity.
Qed.

End PageExecutionSucceeds.

Section PagedRead.

Variable db : list Entry.
Variable P : nat.
Hypothesis P_positive : (1 <= P)%nat.

Let L : LdapLibrary := Stub.directory db.

(** The cookie of an offset is empty exactly at offset zero, and [strlen]
    sees all of it. *)
Lemma strlen_cookie_at (n : nat) : strlen (Stub.cookie_at n) = n.
Proof.
  induction n as [|n IH]; [reflexivity|].
  cbn. f_equal. exact IH.
Qed.

Lemma length_cookie_at (n : nat) : List.length (Stub.cookie_at n) = n.
Proof. apply repeat_length. Qed.

(** A page execution against the directory, with [later] still to come and
    the cursor not positioned: it returns, and the [fetch()] that follows
    is at the first entry of [later], with the rest of the page behind it
    and what follows the page still to come. *)
Lemma page_arrival (st : ldapReader) (sent later0 : list Entry) (l : Entry) :
  entry st = None ->
  pageSize st = Z.of_nat P ->
  db = sent ++ l :: later0 ->
  berval_bytes (pageCookie st) = Stub.cookie_at (List.length sent) ->
  exists st2,
    _query L st = Ret tt st2 /\
    fetch L st2 = Ret true (set_entry (Some (mkRef l (firstn (P - 1) later0))) st2) /\
    paging db P (set_entry (Some (mkRef l (firstn (P - 1) later0))) st2)
      (skipn (P - 1) later0).
Proof.
  intros Hent Hsize Hdb Hcookie.
  remember (l :: later0) as later eqn:Hlater.
  set (next := (List.length sent + P)%nat).
  set (ck := if (next <? List.length db)%nat then Stub.cookie_at next else []).
  set (res := Stub.response (firstn P later) (List.length db) ck).
  assert (Hpage : firstn P later = l :: firstn (P - 1) later0).
  { rewrite Hlater. destruct P as [|p]; [lia|]. cbn. rewrite Nat.sub_0_r. reflexivity. }
  assert (Hskip : skipn P later = skipn (P - 1) later0).
  { rewrite Hlater. destruct P as [|p]; [lia|]. cbn. rewrite Nat.sub_0_r. reflexivity. }
  assert (Hq : _query L st = Ret tt (page_received st res (Z.of_nat (List.length db)) ck)).
  { apply (_query_succeeds L st res
             (mkControl LDAP_CONTROL_PAGEDRESULTS
                (Some (Z.of_nat (List.length db), ck)) "F"%char) []).
    - reflexivity.
    - unfold L, Stub.directory, page_request, Stub.paged_search. cbn.
      rewrite Hsize, Hcookie, length_cookie_at, Nat2Z.id.
      rewrite Hdb at 1. rewrite skipn_app, skipn_all, Nat.sub_diag. cbn [skipn app].
      reflexivity.
    - reflexivity.
    - reflexivity.
    - reflexivity. }
  exists (page_received st res (Z.of_nat (List.length db)) ck).
  split; [exact Hq|]. split.
  - rewrite (fetch_first L (page_received st res (Z.of_nat (List.length db)) ck) res);
      [|reflexivity|exact Hent].
    unfold ldap_first_entry, res, Stub.response. cbn [msg_entries].
    rewrite Hpage. reflexivity.
  - unfold paging.
    cbn [pageSize result pageCookie isMorePageAvailable set_entry page_received
         set_isMorePageAvailable set_pageCookie set_resultCount set_result
         record_call set_connection set_controls set_pageControl].
    split; [exact Hsize|]. split; [eauto|]. split.
    + exists (sent ++ firstn P later). split.
      * rewrite <- Hskip, <- app_assoc, firstn_skipn. exact Hdb.
      * intros Hmore. rewrite berval_bytes_of_bytes. unfold ck.
        assert (Hlong : (P < List.length later)%nat).
        { destruct (Nat.lt_ge_cases P (List.length later)) as [H|H]; [exact H|].
          exfalso. apply Hmore. rewrite <- Hskip. apply skipn_all2. exact H. }
        rewrite length_app, length_firstn, Nat.min_l by lia.
        assert (Hlt : (next <? List.length db)%nat = true).
        { apply Nat.ltb_lt. unfold next. rewrite Hdb, length_app. lia. }
        rewrite Hlt. reflexivity.
    + unfold ck. rewrite <- Hskip.
      destruct (skipn P later) as [|x xs] eqn:E.
      * assert (Hshort : (List.length later <= P)%nat).
        { destruct (Nat.lt_ge_cases P (List.length later)) as [H|H]; [|exact H].
          exfalso. assert (Hl := length_skipn P later). rewrite E in Hl. cbn in Hl. lia. }
        assert (Hge : (next <? List.length db)%nat = false).
        { apply Nat.ltb_ge. unfold next. rewrite Hdb, length_app. lia. }
        rewrite Hge. reflexivity.
      * assert (Hlong : (P < List.length later)%nat).
        { assert (Hl := length_skipn P later). rewrite E in Hl. cbn in Hl. lia. }
        assert (Hlt : (next <? List.length db)%nat = true).
        { apply Nat.ltb_lt. unfold next. rewrite Hdb, length_app. lia. }
        rewrite Hlt, strlen_cookie_at.
        apply Nat.ltb_lt. unfold next. lia.
Qed.

(** Moving the cursor changes nothing of the paging state. *)
Lemma paging_set_entry (st : ldapReader) (later : list Entry)
    (v : option EntryRef) :
  paging db P st later -> paging db P (set_entry v st) later.
Proof. unfold paging. cbn. auto. Qed.

(** Inside a page [fetch()] steps to the next entry. *)
Lemma fetch_within_page (st : ldapReader) (later rest : list Entry)
    (cur e : Entry) :
  paging db P st later -> entry st = Some (mkRef cur (e :: rest)) ->
  fetch L st = Ret true (set_entry (Some (mkRef e rest)) st).
Proof.
  intros (_ & (res & Hres) & _ & _) Hent.
  exact (fetch_next L st res (mkRef cur (e :: rest)) (mkRef e rest) Hres Hent eq_refl).
Qed.

(** From an entry with [rest] behind it on the page and [later] still to
    come, [fetch()] returns true once for each of them and then false. *)
Lemma fetch_rest_of_directory (n : nat) :
  forall (later rest : list Entry) (cur : Entry) (st : ldapReader),
    (List.length later <= n)%nat ->
    paging db P st later ->
    entry st = Some (mkRef cur rest) ->
    exists st',
      fetch_times L (List.length rest + List.length later) st
        = (repeat true (List.length rest + List.length later), Some st') /\
      fetch L st' = Ret false (set_entry None st').
Proof.
  induction n as [|n IHn]; intros later rest;
    induction rest as [|e rest IHrest]; intros cur st Hlen Hpaging Hent.
  - (* nothing to come, end of the page *)
    destruct later; [|cbn in Hlen; lia].
    exists st. split; [reflexivity|].
    destruct Hpaging as (_ & (res & Hres) & _ & Hmore).
    exact (fetch_last L st res (mkRef cur []) Hres Hent eq_refl Hmore).
  - assert (Hstep := fetch_within_page st later rest cur e Hpaging Hent).
    destruct (IHrest e (set_entry (Some (mkRef e rest)) st) Hlen
                (paging_set_entry st later _ Hpaging) eq_refl)
      as (st' & Htimes & Hend).
    exists st'. split; [|exact Hend].
    cbn [List.length Nat.add fetch_times repeat]. rewrite Hstep, Htimes. reflexivity.
  - destruct later as [|l later0].
    + exists st. split; [reflexivity|].
      destruct Hpaging as (_ & (res & Hres) & _ & Hmore).
      exact (fetch_last L st res (mkRef cur []) Hres Hent eq_refl Hmore).
    + (* end of the page, more to come: the next page is fetched *)
      destruct Hpaging as (Hsize & (res & Hres) & (sent & Hdb & Hcookie) & Hmore).
      destruct (page_arrival (set_entry None st) sent later0 l eq_refl Hsize Hdb
                  (Hcookie ltac:(discriminate)))
        as (st2 & Hq & Hfirst & Hpaging2).
      assert (Hstep : fetch L st
                      = Ret true (set_entry (Some (mkRef l (firstn (P - 1) later0))) st2)).
      { rewrite (fetch_next_page L st res (mkRef cur []) Hres Hent eq_refl Hmore).
        rewrite Hq. exact Hfirst. }
      destruct (IHn (skipn (P - 1) later0) (firstn (P - 1) later0) l
                  (set_entry (Some (mkRef l (firstn (P - 1) later0))) st2))
        as (st' & Htimes & Hend).
      * rewrite length_skipn. cbn in Hlen. lia.
      * exact Hpaging2.
      * reflexivity.
      * exists st'. split; [|exact Hend].
        assert (Hcount : (List.length (firstn (P - 1) later0)
                          + List.length (skipn (P - 1) later0))%nat
                         = List.length later0).
        { rewrite <- length_app, firstn_skipn. reflexivity. }
        rewrite Hcount in Htimes.
        cbn [List.length Nat.add fetch_times repeat]. rewrite Hstep, Htimes. reflexivity.
  - assert (Hstep := fetch_within_page st later rest cur e Hpaging Hent).
    destruct (IHrest e (set_entry (Some (mkRef e rest)) st) Hlen
                (paging_set_entry st later _ Hpaging) eq_refl)
      as (st' & Htimes & Hend).
    exists st'. split; [|exact Hend].
    cbn [List.length Nat.add fetch_times repeat]. rewrite Hstep, Htimes. reflexivity.
Qed.

(** X5.  On the paging directory, whatever the page size, a query on an object
    with an empty cookie and no current entry is followed by as many true
    results of [fetch()] as the directory has entries, and then by false. *)
Theorem fetch_counts_every_entry (st0 st1 : ldapReader) (filter base : string)
    (attrNum : N) (va : list string) :
  entry st0 = None ->
  berval_bytes (pageCookie st0) = [] ->
  pageSize st0 = Z.of_nat P ->
  query L filter base attrNum va st0 = Ret tt st1 ->
  exists st',
    fetch_times L (List.length db) st1 = (repeat true (List.length db), Some st') /\
    fetch L st' = Ret false (set_entry None st').
Proof.
  intros Hent Hcookie Hsize Hq.
  apply query_returns in Hq.
  destruct Hq as (names & _ & _ & Hpage).
  destruct (stored_query_keeps st0 filter base names)
    as (Hent0 & Hcookie0 & Hsize0 & _).
  cbn zeta in Hent0, Hcookie0, Hsize0.
  rewrite Hent in Hent0. rewrite Hsize in Hsize0.
  assert (Hcases : db = [] \/ exists l later0, db = l :: later0)
    by (destruct db; eauto).
  destruct Hcases as [Hdb | (l & later0 & Hdb)].
  - (* an empty directory: the one page is empty *)
    exists st1. rewrite Hdb at 1 2. split; [reflexivity|].
    assert (E := Hpage). apply _query_returns in E.
    destruct E as (res & c & rest & count & cookie & Hsearch & _ & _ & _ & Hst1).
    assert (Hres : res = Stub.response [] 0 []).
    { unfold L, Stub.directory, page_request, Stub.paged_search in Hsearch.
      cbn in Hsearch. rewrite Hdb in Hsearch.
      rewrite skipn_nil, firstn_nil in Hsearch. cbn in Hsearch.
      inversion Hsearch; reflexivity. }
    rewrite (fetch_first L st1 res).
    + rewrite Hres. reflexivity.
    + rewrite Hst1. reflexivity.
    + rewrite (_query_keeps_entry L _ _ Hpage). exact Hent0.
  - destruct (page_arrival (stored_query filter base names st0) [] later0 l
                Hent0 Hsize0 Hdb)
      as (st2 & Hq2 & Hfirst & Hpaging).
    { rewrite Hcookie0. exact Hcookie. }
    rewrite Hpage in Hq2. inversion Hq2; subst st2.
    destruct (fetch_rest_of_directory (List.length (skipn (P - 1) later0))
                (skipn (P - 1) later0) (firstn (P - 1) later0) l
                (set_entry (Some (mkRef l (firstn (P - 1) later0))) st1)
                (le_n _) Hpaging eq_refl)
      as (st' & Htimes & Hend).
    exists st'. split; [|exact Hend].
    assert (Hcount : (List.length (firstn (P - 1) later0)
                      + List.length (skipn (P - 1) later0))%nat
                     = List.length later0).
    { rewrite <- length_app, firstn_skipn. reflexivity. }
    rewrite Hcount in Htimes.
    rewrite Hdb at 1 2. cbn [List.length fetch_times repeat].
    rewrite Hfirst, Htimes. reflexivity.
Qed.

End PagedRead.

Lemma fetch_counts_every_entry_witness :
  exists st',
    fetch_times (Stub.directory Stub.three_users) (List.length Stub.three_users)
      Stub.queried
      = (repeat true (List.length Stub.three_users), Some st') /\
    fetch (Stub.directory Stub.three_users) st' = Ret false (set_entry None st').
Proof.
  exact (fetch_counts_every_entry Stub.three_users 2 (le_S 1 1 (le_n 1))
           Stub.sized Stub.queried Stub.filter Stub.base 1%N ["sAMAccountName"]
           eq_refl eq_refl eq_refl scenario_query).
Defined.

(** * Construction, binding and the outcomes of a query *)

(** The bytes of a stored password are the password. *)
Lemma length_list_byte_of_string (s : string) :
  List.length (list_byte_of_string s) = String.length s.
Proof.
  unfold list_byte_of_string. rewrite length_map.
  induction s as [|c s IH]; [reflexivity|]. cbn. f_equal. exact IH.
Qed.

Lemma cred_of_bytes (pass : string) :
  string_of_list_byte (berval_bytes (cred_of pass)) = pass.
Proof.
  unfold berval_bytes, cred_of. cbn [bv_val bv_len].
  rewrite Nnat.Nat2N.id, <- length_list_byte_of_string, firstn_all.
  apply string_of_list_byte_of_string.
Qed.

Section Construction.
Variable L : LdapLibrary.

Lemma _start_returns (raw : ldapReader) :
  exists st, _start raw = Ret tt st /\
    isBinded st = false /\ isInitialized st = false /\ isCredExist st = false /\
    bindCred st = mkBerval 0 None /\ version st = 0 /\
    searchBase st = None /\ searchFilter st = None /\
    requestedAttributes st = None /\ pageSize st = _DEFAULT_PAGE_SIZE /\
    isPagingCritical st = _DEFAULT_PAGING_CRITICAL /\ pageControl st = None /\
    result st = None /\ isMorePageAvailable st = false /\ entry st = None /\
    controls st = None /\ resultCount st = 0 /\
    connection st = connection raw /\ uri st = uri raw /\
    bindUser st = bindUser raw /\ pageCookie st = pageCookie raw.
Proof.
  eexists. split; [reflexivity|]. cbn. repeat split.
Qed.

(** X7.  The constructors without credentials.  [ldapReader(uri)] is
    [ldapReader(uri, 3)].  The constructor returns exactly when
    [ldap_initialize] succeeds and, for a version other than 0, so does
    [ldap_set_option]; it throws the message of the call that failed.  The
    object it returns holds the URI and the version, is initialised and not
    bound, has page size 1000 and critical paging, no stored query, no
    result and no entry, and its cookie is whatever the storage held. *)
Theorem plain_constructor_outcome (raw : ldapReader) (serverUri : string) (v : Z) :
  new_uri L serverUri raw = new_uri_version L serverUri _DEFAULT_LDAP_VERSION raw /\
  let rc := ldap_initialize L (Some serverUri) in
  let rc' := ldap_set_option L v in
  match new_uri_version L serverUri v raw with
  | Ret _ st =>
      rc = LDAP_SUCCESS /\ (v <> 0 -> rc' = LDAP_SUCCESS) /\
      uri st = Some serverUri /\ version st = v /\ isInitialized st = true /\
      connection st = [] /\
      isBinded st = false /\ isCredExist st = false /\
      pageSize st = 1000 /\ isPagingCritical st = "T"%char /\
      searchBase st = None /\ searchFilter st = None /\
      requestedAttributes st = None /\
      result st = None /\ entry st = None /\ isMorePageAvailable st = false /\
      pageCookie st = pageCookie raw
  | Throw what _ =>
      (rc <> LDAP_SUCCESS /\ what = ldap_err2string L rc) \/
      (rc = LDAP_SUCCESS /\ v <> 0 /\ rc' <> LDAP_SUCCESS /\
       what = ldap_err2string L rc')
  | Undefined => False
  end.
Proof.
  split; [reflexivity|].
  intros rc rc'. subst rc rc'.
  unfold new_uri_version, _setUri, _initialize, _setVersion, mbind at 1 2 3.
  destruct (_start_returns raw) as (s & -> & F).
  unfold mbind, assign, get, throw, ret. cbn [uri set_uri].
  destruct (ldap_initialize L (Some serverUri) =? LDAP_SUCCESS) eqn:Hinit.
  2:{ apply Z.eqb_neq in Hinit. left. auto. }
  apply Z.eqb_eq in Hinit.
  destruct (v =? 0) eqn:Hv; cbn [negb].
  - apply Z.eqb_eq in Hv. subst v. cbn.
    decompose [and] F. repeat split; auto; try congruence.
  - apply Z.eqb_neq in Hv.
    destruct (ldap_set_option L v =? LDAP_SUCCESS) eqn:Hopt.
    + apply Z.eqb_eq in Hopt. cbn. decompose [and] F. repeat split; auto.
    + apply Z.eqb_neq in Hopt. right. auto.
Qed.

Lemma bind_again_runs (st : ldapReader) :
  isCredExist st = true -> bind L true st = _bind L st.
Proof.
  intros Hcred. unfold bind, mbind, get, throw. cbn [negb].
  rewrite andb_false_r. cbn beta. rewrite Hcred. reflexivity.
Qed.

(** X9.  Past the guard, [bind(user, pass, rebind)] stores user and
    password (the stored bytes are the password) and sends one handshake
    with them.  Accepted, the object is bound.  Rejected, the server's
    message is thrown, the bound flag stays as it was, and the rejected
    credentials stay stored: a following [bind(true)] sends them again. *)
Theorem bind_as_outcome (st : ldapReader) (user pass : string) (rebind : bool) :
  isBinded st = false \/ rebind = true ->
  let rc := ldap_sasl_bind_s L (connection st) (Some user) (cred_of pass) in
  exists st',
    state_after (bind_as L user pass rebind st) = Some st' /\
    bindUser st' = Some user /\ bindCred st' = cred_of pass /\
    isCredExist st' = true /\
    string_of_list_byte (berval_bytes (bindCred st')) = pass /\
    connection st' = call_sasl_bind (Some user) (cred_of pass) :: connection st /\
    (rc = LDAP_SUCCESS ->
     bind_as L user pass rebind st = Ret tt st' /\ isBinded st' = true) /\
    (rc <> LDAP_SUCCESS ->
     bind_as L user pass rebind st = Throw (ldap_err2string L rc) st' /\
     isBinded st' = isBinded st /\
     exists st'',
       state_after (bind L true st') = Some st'' /\
       connection st'' = call_sasl_bind (Some user) (cred_of pass) :: connection st').
Proof.
  intros Hmay rc. rewrite (bind_as_runs L st user pass rebind Hmay). cbn zeta.
  fold rc.
  set (st1 := record_call (call_sasl_bind (Some user) (cred_of pass))
                (stored_cred user pass st)).
  destruct (rc =? LDAP_SUCCESS) eqn:Hrc.
  - apply Z.eqb_eq in Hrc. exists (set_isBinded true st1).
    repeat split; try apply cred_of_bytes; contradiction.
  - apply Z.eqb_neq in Hrc. exists st1.
    split; [reflexivity|]. do 5 (split; [first [reflexivity|apply cred_of_bytes]|]).
    split; [contradiction|]. intros _.
    split; [reflexivity|]. split; [reflexivity|].
    rewrite (bind_again_runs st1 eq_refl), _bind_handshake. cbn zeta.
    destruct (_ =? _); eexists; split; reflexivity.
Qed.

Lemma mbind_assoc {A B C : Type} (m : method A) (k : A -> method B)
    (k' : B -> method C) (st : ldapReader) :
  mbind (mbind m k) k' st = mbind m (fun a => mbind (k a) k') st.
Proof. unfold mbind. destruct (m st); reflexivity. Qed.

(** No constructor with credentials leaves the language: it returns or
    throws. *)
Lemma credential_constructor_defined (raw : ldapReader)
    (serverUri user pass : string) (v : Z) :
  new_uri_cred_version L serverUri user pass v raw <> Undefined.
Proof.
  unfold new_uri_cred_version, _setUri, _initialize, _setVersion, mbind at 1 2 3.
  destruct (_start_returns raw) as (s & -> & F).
  unfold mbind at 1 2 3 4, assign, get, throw, ret. cbn [uri set_uri].
  destruct (ldap_initialize L (Some serverUri) =? LDAP_SUCCESS); [|discriminate].
  destruct (v =? 0); cbn [negb].
  - rewrite bind_as_runs by (left; cbn; tauto). cbn.
    destruct (_ =? LDAP_SUCCESS); discriminate.
  - destruct (ldap_set_option L v =? LDAP_SUCCESS); [|discriminate].
    rewrite bind_as_runs by (left; cbn; tauto). cbn.
    destruct (_ =? LDAP_SUCCESS); discriminate.
Qed.

(** X8.  The constructors with credentials return exactly when, in
    addition, the handshake with the given user and password is accepted:
    the object is then bound with them and one bind was sent.  A rejected
    handshake throws the server's message out of the constructor. *)
Theorem credential_constructor_outcome (raw : ldapReader)
    (serverUri user pass : string) (v : Z) :
  new_uri_cred L serverUri user pass raw
    = new_uri_cred_version L serverUri user pass _DEFAULT_LDAP_VERSION raw /\
  let rc := ldap_initialize L (Some serverUri) in
  let rc' := ldap_set_option L v in
  let rcb := ldap_sasl_bind_s L [] (Some user) (cred_of pass) in
  match new_uri_cred_version L serverUri user pass v raw with
  | Ret _ st =>
      rc = LDAP_SUCCESS /\ (v <> 0 -> rc' = LDAP_SUCCESS) /\ rcb = LDAP_SUCCESS /\
      isBinded st = true /\ isCredExist st = true /\
      bindUser st = Some user /\ bindCred st = cred_of pass /\
      connection st = [call_sasl_bind (Some user) (cred_of pass)] /\
      uri st = Some serverUri /\ version st = v /\ isInitialized st = true /\
      pageSize st = 1000 /\ isPagingCritical st = "T"%char /\
      result st = None /\ entry st = None /\ isMorePageAvailable st = false
  | Throw what _ =>
      (rc <> LDAP_SUCCESS /\ what = ldap_err2string L rc) \/
      (rc = LDAP_SUCCESS /\ v <> 0 /\ rc' <> LDAP_SUCCESS /\
       what = ldap_err2string L rc') \/
      (rc = LDAP_SUCCESS /\ (v <> 0 -> rc' = LDAP_SUCCESS) /\
       rcb <> LDAP_SUCCESS /\ what = ldap_err2string L rcb)
  | Undefined => False
  end.
Proof.
  split; [reflexivity|].
  intros rc rc' rcb. subst rc rc' rcb.
  unfold new_uri_cred_version, _setUri, _initialize, _setVersion, mbind at 1 2 3.
  destruct (_start_returns raw) as (s & -> & F).
  unfold mbind at 1 2 3 4, assign, get, throw, ret. cbn [uri set_uri].
  destruct (ldap_initialize L (Some serverUri) =? LDAP_SUCCESS) eqn:Hinit.
  2:{ apply Z.eqb_neq in Hinit. left. auto. }
  apply Z.eqb_eq in Hinit.
  destruct (v =? 0) eqn:Hv; cbn [negb].
  - apply Z.eqb_eq in Hv. subst v.
    rewrite bind_as_runs by (left; cbn; tauto). cbn.
    destruct (_ =? LDAP_SUCCESS) eqn:Hb.
    + apply Z.eqb_eq in Hb. cbn. decompose [and] F.
      repeat split; auto; try congruence.
    + apply Z.eqb_neq in Hb. right. right. repeat split; auto; congruence.
  - apply Z.eqb_neq in Hv.
    destruct (ldap_set_option L v =? LDAP_SUCCESS) eqn:Hopt.
    2:{ apply Z.eqb_neq in Hopt. right. left. auto. }
    apply Z.eqb_eq in Hopt.
    rewrite bind_as_runs by (left; cbn; tauto). cbn.
    destruct (_ =? LDAP_SUCCESS) eqn:Hb.
    + apply Z.eqb_eq in Hb. cbn. decompose [and] F.
      repeat split; auto; try congruence.
    + apply Z.eqb_neq in Hb. right. right. repeat split; auto; congruence.
Qed.
End Construction.

Section CursorRequests.
Variable L : LdapLibrary.

(** The calls one [fetch()] adds to the connection: none, or the request of
    the next page, and that only from the end of a page with the flag on. *)
Lemma fetch_calls (st st' : ldapReader) :
  state_after (fetch L st) = Some st' ->
  connection st' = connection st \/
  (connection st' = call_search (page_request st) :: connection st /\
   (exists cur, entry st = Some cur /\ ldap_next_entry cur = None) /\
   isMorePageAvailable st = true).
Proof.
  destruct (result st) as [res|] eqn:Hres.
  2:{ rewrite (fetch_no_result L _ Hres). cbn. intros H; inversion H. auto. }
  destruct (entry st) as [cur|] eqn:Hent.
  2:{ rewrite (fetch_first L _ _ Hres Hent).
      destruct (ldap_first_entry res); cbn; intros H; inversion H; auto. }
  destruct (ldap_next_entry cur) as [nxt|] eqn:Hnext.
  { rewrite (fetch_next L _ _ _ _ Hres Hent Hnext). cbn.
    intros H; inversion H; auto. }
  destruct (isMorePageAvailable st) eqn:Hmore.
  2:{ rewrite (fetch_last L _ _ _ Hres Hent Hnext Hmore). cbn.
      intros H; inversion H; auto. }
  rewrite (fetch_next_page L _ _ _ Hres Hent Hnext Hmore).
  destruct (_query L (set_entry None st)) as [[] st2|what st2|] eqn:E.
  - destruct (fetch_after_page L (set_entry None st) st2 eq_refl E)
      as (res2 & _ & ->).
    apply _query_returns in E.
    destruct E as (r & c & rest & count & cookie & _ & _ & _ & _ & ->).
    destruct (ldap_first_entry res2); cbn; intros H; inversion H; right;
      (split; [reflexivity|split; [eauto|reflexivity]]).
  - cbn. intros H; inversion H; subst.
    assert (S : state_after (_query L (set_entry None st)) = Some st')
      by (rewrite E; reflexivity).
    destruct (_query_effects L _ _ S) as (_ & _ & [C|C]); [left|right]; cbn in C.
    + exact C.
    + split; [exact C|]. split; [eauto|reflexivity].
  - cbn. discriminate.
Qed.

(** X16.  Every search that a run of [fetch()] calls sends is the page request
    of the query stored when the run began. *)
Theorem fetched_requests_repeat_query (st st' : ldapReader) :
  fetched L st st' ->
  exists pages,
    connection st' = map call_search pages ++ connection st /\
    Forall (fun rq =>
              rq_base rq = searchBase st /\ rq_filter rq = searchFilter st /\
              rq_attrs rq = requestedAttributes st /\
              rq_scope rq = LDAP_SCOPE_SUBTREE /\
              rq_sizelimit rq = LDAP_NO_LIMIT /\
              exists cookie,
                rq_serverctrls rq
                  = Some [mkControl LDAP_CONTROL_PAGEDRESULTS
                            (Some (pageSize st, cookie)) (isPagingCritical st)])
           pages.
Proof.
  induction 1 as [st|st b st1 st2 Hfetch _ IH].
  - exists []. split; [reflexivity|constructor].
  - assert (S : state_after (fetch L st) = Some st1) by (rewrite Hfetch; reflexivity).
    assert (F := fetch_frame L st st1 S). unfold same_outside_paging in F.
    destruct F as (_ & _ & _ & _ & Hb & Hf & Ha & Hs & Hc & _).
    destruct IH as (pages & Hconn & Hall).
    rewrite Hb, Hf, Ha, Hs, Hc in Hall.
    destruct (fetch_calls st st1 S) as [C|(C & _ & _)].
    + exists pages. rewrite Hconn, C. split; [reflexivity|exact Hall].
    + exists (pages ++ [page_request st]). split.
      * rewrite Hconn, C, map_app, <- app_assoc. reflexivity.
      * apply Forall_app. split; [exact Hall|]. constructor; [|constructor].
        unfold page_request, page_control. cbn. repeat split. eauto.
Qed.

(** X17.  On a page without entries the cursor stays: every [fetch()]
    returns false without a call to the library, whatever the flag says, so
    pages that the server announced after it are never asked for. *)
Theorem fetch_stuck_on_empty_page (st : ldapReader) (res : LDAPMessage) (n : nat) :
  result st = Some res -> msg_entries res = [] -> entry st = None ->
  exists st',
    fetch_times L n st = (repeat false n, Some st') /\
    connection st' = connection st /\
    isMorePageAvailable st' = isMorePageAvailable st /\
    pageCookie st' = pageCookie st.
Proof.
  intros Hres Hempty Hent. revert st Hres Hent.
  induction n as [|n IH]; intros st Hres Hent.
  - exists st. repeat split.
  - destruct (IH (set_entry None st) Hres eq_refl) as (st' & Htimes & Hc & Hm & Hk).
    exists st'. cbn [fetch_times repeat].
    rewrite (fetch_first L st res Hres Hent).
    unfold ldap_first_entry. rewrite Hempty, Htimes. auto.
Qed.

(** X18.  [fetch()] that moves to a next page without entries returns
    false after the one search, whatever that page's cookie says: it does
    not go on to the page after it. *)
Theorem fetch_false_on_empty_next_page (st st2 : ldapReader) (res res2 : LDAPMessage)
    (cur : EntryRef) :
  result st = Some res -> entry st = Some cur -> ldap_next_entry cur = None ->
  isMorePageAvailable st = true ->
  _query L (set_entry None st) = Ret tt st2 ->
  result st2 = Some res2 -> msg_entries res2 = [] ->
  fetch L st = Ret false (set_entry None st2) /\
  connection (set_entry None st2)
    = call_search (page_request st) :: connection st.
Proof.
  intros Hres Hent Hnext Hmore Hq Hres2 Hempty.
  split.
  - rewrite (fetch_next_page L st res cur Hres Hent Hnext Hmore), Hq.
    rewrite (fetch_first L st2 res2 Hres2).
    + unfold ldap_first_entry. rewrite Hempty. reflexivity.
    + rewrite (_query_keeps_entry L _ _ Hq). reflexivity.
  - apply _query_returns in Hq.
    destruct Hq as (r & c & rest & count & cookie & _ & _ & _ & _ & ->).
    reflexivity.
Qed.

End CursorRequests.

Section QueryOutcomes.
Variable L : LdapLibrary.

(** The loop over the variable arguments reads the first [n] names, and
    cannot when fewer were passed. *)
Lemma va_names_firstn (n : nat) (va : list string) :
  va_names n va = if (n <=? List.length va)%nat then Some (firstn n va) else None.
Proof.
  revert va. induction n as [|n IH]; intros va; [reflexivity|].
  destruct va as [|buf va']; [reflexivity|].
  cbn [va_names List.length firstn]. rewrite IH.
  change (S n <=? S (List.length va'))%nat with (n <=? List.length va')%nat.
  destruct (n <=? List.length va')%nat; reflexivity.
Qed.

(** [query] up to the page execution, when the count of names passes the
    checks. *)
Lemma query_runs_page (st : ldapReader) (filter base : string) (attrNum : N)
    (va : list string) (names : option (list string)) :
  (if (0 <? attrNum)%N
   then (attrNum <= _DEFAULT_MAX_NUMBER_OF_ATTRIBUTES)%N /\
        va_names (N.to_nat attrNum) va = names /\ names <> None
   else names = None) ->
  query L filter base attrNum va st = _query L (stored_query filter base names st).
Proof.
  unfold query, stored_query, mbind, assign, get, ret, throw, undefined.
  destruct (0 <? attrNum)%N.
  - intros (Hmax & Hva & Hsome). apply N.ltb_ge in Hmax. rewrite Hmax, Hva.
    destruct names as [l|]; [|contradiction]. cbn.
    destruct (result st); reflexivity.
  - intros ->. cbn. destruct (result st); reflexivity.
Qed.

(** X11.  With between 1 and 50 names announced, [query] stores exactly the
    first [attrNum] of the names passed, in order, and runs the page with
    them; with fewer names passed than announced it reads past them. *)
Theorem query_reads_announced_names (st : ldapReader) (filter base : string)
    (attrNum : N) (va : list string) :
  (0 < attrNum)%N -> (attrNum <= _DEFAULT_MAX_NUMBER_OF_ATTRIBUTES)%N ->
  (List.length va < N.to_nat attrNum)%nat /\
    query L filter base attrNum va st = Undefined
  \/
  (N.to_nat attrNum <= List.length va)%nat /\
    query L filter base attrNum va st
      = _query L (stored_query filter base (Some (firstn (N.to_nat attrNum) va)) st) /\
    forall st', state_after (query L filter base attrNum va st) = Some st' ->
                requestedAttributes st' = Some (firstn (N.to_nat attrNum) va).
Proof.
  intros Hpos Hmax.
  assert (Hva := va_names_firstn (N.to_nat attrNum) va).
  destruct (N.to_nat attrNum <=? List.length va)%nat eqn:Hlen.
  - right. apply Nat.leb_le in Hlen. split; [exact Hlen|].
    assert (Hq : query L filter base attrNum va st
                 = _query L (stored_query filter base
                               (Some (firstn (N.to_nat attrNum) va)) st)).
    { apply query_runs_page. apply N.ltb_lt in Hpos. rewrite Hpos.
      repeat split; [exact Hmax|exact Hva|discriminate]. }
    split; [exact Hq|]. intros st' S. rewrite Hq in S.
    destruct (_query_effects L _ _ S) as (F & _).
    unfold same_outside_paging in F.
    destruct (stored_query_keeps st filter base (Some (firstn (N.to_nat attrNum) va)))
      as (_ & _ & _ & _ & _ & _ & Hattrs & _).
    cbn zeta in Hattrs. rewrite <- Hattrs. tauto.
  - left. apply Nat.leb_gt in Hlen. split; [exact Hlen|].
    unfold query, mbind, assign, get, ret, throw, undefined.
    apply N.ltb_lt in Hpos. apply N.ltb_ge in Hmax. rewrite Hpos, Hmax, Hva.
    reflexivity.
Qed.

(** The outcome of a page execution, read off the answers of the library. *)
Lemma _query_outcome (st : ldapReader) :
  let rcc := ldap_create_page_control L (connection st) (pageSize st)
               (pageCookie st) (isPagingCritical st) in
  let pc := page_control (pageSize st) (pageCookie st) (isPagingCritical st) in
  let sent := record_call (call_search (page_request st))
                (set_controls (Some [pc]) (set_pageControl (Some pc) st)) in
  _query L st =
    if negb (rcc =? 0)
    then
      let st0 := match controls st with
                 | None => set_controls (Some []) st
                 | Some _ => st
                 end in
      Throw (ldap_err2string L rcc)
        (match pageControl st with
         | Some _ => set_pageControl None st0
         | None => st0
         end)
    else
      let (rc, res) := ldap_search_ext_s L (connection st) (page_request st) in
      if negb (rc =? LDAP_SUCCESS)
      then Throw (ldap_err2string L rc) (set_result res sent)
      else
        match res with
        | None => Throw (ldap_err2string L LDAP_PARAM_ERROR) (set_result None sent)
        | Some m =>
            if negb (msg_parse_rc m =? LDAP_SUCCESS)
            then Throw (ldap_err2string L (msg_parse_rc m)) (set_result res sent)
            else
              match msg_controls m with
              | None => Undefined
              | Some [] =>
                  Throw (ldap_err2string L LDAP_PARAM_ERROR) (set_result res sent)
              | Some (c :: _) =>
                  match ldctl_value c with
                  | None =>
                      Throw (ldap_err2string L LDAP_DECODING_ERROR)
                        (set_result res sent)
                  | Some (count, cookie) =>
                      Ret tt (page_received st m count cookie)
                  end
              end
        end.
Proof.
  cbv zeta. unfold page_request, page_received.
  run_methods.
  destruct (controls st); simpl; destruct (pageControl st); simpl;
    (destruct (_ =? 0); simpl; [|reflexivity]);
    (destruct (ldap_search_ext_s L _ _) as [rc res]; simpl);
    (destruct (rc =? LDAP_SUCCESS); simpl; [|reflexivity]);
    (destruct res as [m|]; simpl; [|reflexivity]);
    (destruct (msg_parse_rc m =? LDAP_SUCCESS); simpl; [|reflexivity]);
    (destruct (msg_controls m) as [[|c cs]|]; simpl; try reflexivity);
    (destruct (ldctl_value c) as [[count cookie]|]; simpl; [|reflexivity]);
    destruct (0 <? strlen cookie)%nat; reflexivity.
Qed.

Lemma query_all_runs_page (st : ldapReader) (filter base : string) :
  query_all L filter base st = _query L (stored_query filter base None st).
Proof. unfold query_all. apply query_runs_page. reflexivity. Qed.

(** X13.  A search that the library fails ends [query(filter, base)] with the
    library's message.  The request was sent; the result member now holds
    what the failed search left, while cursor, cookie and flag are still
    those of the query before. *)
Theorem query_all_search_failure (st : ldapReader) (filter base : string)
    (rc : Z) (res : option LDAPMessage) :
  let st0 := stored_query filter base None st in
  ldap_create_page_control L (connection st0) (pageSize st0) (pageCookie st0)
    (isPagingCritical st0) = 0 ->
  ldap_search_ext_s L (connection st0) (page_request st0) = (rc, res) ->
  rc <> LDAP_SUCCESS ->
  exists st',
    query_all L filter base st = Throw (ldap_err2string L rc) st' /\
    result st' = res /\
    entry st' = entry st /\ pageCookie st' = pageCookie st /\
    isMorePageAvailable st' = isMorePageAvailable st /\
    searches (connection st') = page_request st0 :: searches (connection st).
Proof.
  intros st0 Hcreate Hsearch Hrc.
  rewrite query_all_runs_page. fold st0.
  rewrite _query_outcome. cbv zeta. rewrite Hcreate, Hsearch.
  apply Z.eqb_neq in Hrc. rewrite Hrc. cbn [negb Z.eqb].
  eexists. split; [reflexivity|].
  destruct (stored_query_keeps st filter base None)
    as (Hent & Hcookie & _ & _ & _ & _ & _ & Hsent).
  cbn zeta in Hent, Hcookie, Hsent. fold st0 in Hent, Hcookie, Hsent.
  cbn. rewrite Hsent. repeat split; try assumption.
  unfold st0, stored_query. destruct (result st); reflexivity.
Qed.

(** A call that recorded one release and nothing else. *)
Lemma released_during_release (st st' : ldapReader) (old : LDAPMessage) :
  connection st' = call_memfree old :: connection st ->
  released_during st st' = true /\ searched_during st st' = false.
Proof.
  intros H. unfold released_during, searched_during. rewrite H.
  cbn [releases searches List.length]. split.
  - apply Nat.ltb_lt. lia.
  - apply Nat.ltb_irrefl.
Qed.

(** [query(filter, base)] on an object with a result gets to the release,
    however it ends. *)
Lemma query_all_releases (st st' : ldapReader) (filter base : string)
    (old : LDAPMessage) :
  result st = Some old ->
  state_after (query_all L filter base st) = Some st' ->
  released_during st st' = true.
Proof.
  intros Hres H. rewrite query_all_runs_page in H.
  destruct (_query_effects L _ _ H) as (_ & _ & Hconn).
  assert (H0 : connection (stored_query filter base None st)
               = call_memfree old :: connection st).
  { unfold stored_query. rewrite Hres. reflexivity. }
  rewrite H0 in Hconn. unfold released_during.
  destruct Hconn as [-> | ->]; cbn [releases List.length];
    apply Nat.ltb_lt; lia.
Qed.

(** The page control that cannot be built: [_query] throws out of
    [query(filter, base)] after the release. *)
Lemma query_all_control_throw (st : ldapReader) (filter base : string)
    (old : LDAPMessage) (rc : Z) :
  result st = Some old ->
  ldap_create_page_control L (call_memfree old :: connection st) (pageSize st)
    (pageCookie st) (isPagingCritical st) = rc ->
  rc <> 0 ->
  exists st',
    query_all L filter base st = Throw (ldap_err2string L rc) st' /\
    connection st' = call_memfree old :: connection st /\
    result st' = Some old /\
    entry st' = entry st.
Proof.
  intros Hres Hcreate Hrc.
  rewrite query_all_runs_page, _query_outcome. cbv zeta.
  unfold stored_query. rewrite Hres. cbn [connection record_call set_connection
    pageSize pageCookie isPagingCritical set_searchBase set_searchFilter].
  rewrite Hcreate. apply Z.eqb_neq in Hrc. rewrite Hrc. cbn [negb].
  eexists. split; [reflexivity|].
  cbn. destruct (pageControl st); destruct (controls st); cbn;
    repeat split; first [exact Hres|reflexivity].
Qed.

(** X14.  When the page control cannot be built, [query(filter, base)] on an
    object that holds a result throws before any search.  The old result
    has been passed to [ldap_memfree] by then, and [result] still points to
    the released block: a following [fetch()] without a current entry reads
    it, and every following [query(filter, base)] passes it to
    [ldap_memfree] again.  Neither call has defined behaviour. *)
Theorem query_all_control_failure (st : ldapReader) (h : Storage)
    (filter base : string) (old : LDAPMessage) (rc : Z) :
  result st = Some old ->
  result_released h = false ->
  ldap_create_page_control L (call_memfree old :: connection st) (pageSize st)
    (pageCookie st) (isPagingCritical st) = rc ->
  rc <> 0 ->
  exists st' h',
    query_all L filter base st = Throw (ldap_err2string L rc) st' /\
    connection st' = call_memfree old :: connection st /\
    result st' = Some old /\
    entry st' = entry st /\
    query_checked L filter base 0 [] st h = (Throw (ldap_err2string L rc) st', h') /\
    result_released h' = true /\
    (entry st = None -> fetch_checked L st' h' = (Undefined, h')) /\
    (forall filter' base',
       query_checked L filter' base' 0 [] st' h' = (Undefined, h')).
Proof.
  intros Hres Hlive Hcreate Hrc.
  destruct (query_all_control_throw st filter base old rc Hres Hcreate Hrc)
    as (st' & Hthrow & Hconn & Hres' & Hent').
  destruct (released_during_release st st' old Hconn) as (Hrel & Hsea).
  exists st',
    (mkStorage true (entry_is_head h)
       (entry_released h || (entry_is_head h && is_set (entry st)))).
  do 4 (split; [assumption|]).
  split; [|split; [reflexivity|split]].
  - unfold query_checked. change (query L filter base 0 []) with (query_all L filter base).
    rewrite Hthrow. cbn [state_after]. rewrite Hrel, Hsea, Hlive. reflexivity.
  - intros Hnone. unfold fetch_checked. rewrite Hres', Hent', Hnone. reflexivity.
  - intros filter' base'. unfold query_checked.
    change (query L filter' base' 0 []) with (query_all L filter' base').
    destruct (query_all L filter' base' st') as [[] st''|what st''|] eqn:Hq;
      cbn [state_after]; [| |reflexivity].
    + rewrite (query_all_releases st' st'' filter' base' old Hres'
                 ltac:(rewrite Hq; reflexivity)).
      reflexivity.
    + rewrite (query_all_releases st' st'' filter' base' old Hres'
                 ltac:(rewrite Hq; reflexivity)).
      reflexivity.
Qed.

(** X15.  What [query(filter, base)] makes of a search that succeeded, by the
    controls of the response: none at all and the first one is read through
    a null pointer; an empty array and the parameter error of
    [ldap_parse_pageresponse_control] is thrown; a first control that does
    not decode and its decoding error is thrown; else the call returns. *)
Theorem query_all_reads_first_control (st : ldapReader) (filter base : string)
    (m : LDAPMessage) :
  let st0 := stored_query filter base None st in
  ldap_create_page_control L (connection st0) (pageSize st0) (pageCookie st0)
    (isPagingCritical st0) = 0 ->
  ldap_search_ext_s L (connection st0) (page_request st0) = (LDAP_SUCCESS, Some m) ->
  msg_parse_rc m = LDAP_SUCCESS ->
  match msg_controls m with
  | None => query_all L filter base st = Undefined
  | Some [] =>
      exists st', query_all L filter base st
                  = Throw (ldap_err2string L LDAP_PARAM_ERROR) st'
  | Some (c :: _) =>
      match ldctl_value c with
      | None =>
          exists st', query_all L filter base st
                      = Throw (ldap_err2string L LDAP_DECODING_ERROR) st'
      | Some (count, cookie) =>
          query_all L filter base st = Ret tt (page_received st0 m count cookie)
      end
  end.
Proof.
  intros st0 Hcreate Hsearch Hparse.
  rewrite query_all_runs_page. fold st0.
  rewrite _query_outcome. cbv zeta. rewrite Hcreate, Hsearch, Hparse.
  cbn [negb Z.eqb LDAP_SUCCESS].
  destruct (msg_controls m) as [[|c cs]|]; [eauto| |reflexivity].
  destruct (ldctl_value c) as [[count cookie]|]; [reflexivity|eauto].
Qed.

(** The searches a [query] adds: none, or the page request of the stored
    query. *)
Lemma query_searches (st st' : ldapReader) (filter base : string) (attrNum : N)
    (va : list string) :
  state_after (query L filter base attrNum va st) = Some st' ->
  isPagingCritical st' = isPagingCritical st /\
  isInitialized st' = isInitialized st /\ uri st' = uri st /\
  bindUser st' = bindUser st /\ bindCred st' = bindCred st /\
  pageSize st' = pageSize st /\
  (searches (connection st') = searches (connection st) \/
   exists names,
     searches (connection st')
       = page_request (stored_query filter base names st)
         :: searches (connection st)).
Proof.
  unfold query, mbind, assign, get, ret, throw, undefined.
  intros H. cbn in H.
  assert (P : forall names,
            state_after (_query L (stored_query filter base names st)) = Some st' ->
            isPagingCritical st' = isPagingCritical st /\
            isInitialized st' = isInitialized st /\ uri st' = uri st /\
            bindUser st' = bindUser st /\ bindCred st' = bindCred st /\
            pageSize st' = pageSize st /\
            (searches (connection st') = searches (connection st) \/
             exists names,
               searches (connection st')
                 = page_request (stored_query filter base names st)
                   :: searches (connection st))).
  { intros names S. destruct (_query_effects L _ _ S) as (F & _ & C).
    unfold same_outside_paging in F.
    destruct (stored_query_keeps st filter base names)
      as (_ & _ & _ & _ & _ & _ & _ & Hsent).
    cbn zeta in Hsent.
    assert (K : isPagingCritical (stored_query filter base names st) = isPagingCritical st
                /\ isInitialized (stored_query filter base names st) = isInitialized st
                /\ uri (stored_query filter base names st) = uri st
                /\ bindUser (stored_query filter base names st) = bindUser st
                /\ bindCred (stored_query filter base names st) = bindCred st
                /\ pageSize (stored_query filter base names st) = pageSize st).
    { unfold stored_query. destruct names, (result st); cbn; repeat split. }
    decompose [and] F. decompose [and] K.
    repeat split; try congruence.
    destruct C as [C|C]; rewrite C; [left|right; exists names]; cbn [searches];
      rewrite Hsent; reflexivity. }
  destruct (0 <? attrNum)%N.
  - destruct (_DEFAULT_MAX_NUMBER_OF_ATTRIBUTES <? attrNum)%N.
    { cbn in H. inversion H; subst. cbn. repeat split. left. reflexivity. }
    destruct (va_names (N.to_nat attrNum) va) as [l|]; [|discriminate H].
    apply (P (Some l)). unfold stored_query. cbn in H |- *.
    destruct (result st); cbn in H |- *; exact H.
  - apply (P None). unfold stored_query. cbn in H |- *.
    destruct (result st); cbn in H |- *; exact H.
Qed.

(** X12.  [setPageSize] stores any value, and the next [query] sends it
    unchecked as the size of its page control. *)
Theorem page_size_reaches_request (st st' : ldapReader) (ps : Z)
    (filter base : string) (attrNum : N) (va : list string) :
  state_after ((setPageSize ps ;; query L filter base attrNum va) st) = Some st' ->
  pageSize st' = ps /\
  (searches (connection st') = searches (connection st) \/
   exists rq,
     searches (connection st') = rq :: searches (connection st) /\
     rq_serverctrls rq
       = Some [mkControl LDAP_CONTROL_PAGEDRESULTS
                 (Some (ps, berval_bytes (pageCookie st))) (isPagingCritical st)]).
Proof.
  unfold setPageSize, mbind at 1, assign. intros S.
  destruct (query_searches _ _ _ _ _ _ S) as (_ & _ & _ & _ & _ & Hsize & C).
  split; [exact Hsize|].
  destruct C as [C|(names & C)]; [left; exact C|right].
  eexists. split; [exact C|].
  destruct (stored_query_keeps (set_pageSize ps st) filter base names)
    as (_ & Hcookie & Hps & Hcrit & _).
  cbn zeta in Hcookie, Hps, Hcrit.
  unfold page_request, page_control. cbn [rq_serverctrls].
  rewrite Hcookie, Hps, Hcrit. reflexivity.
Qed.
End QueryOutcomes.

Section SessionInvariant.
Variable L : LdapLibrary.

Lemma constructor_prefix (raw s : ldapReader) (serverUri : string) :
  (_start ;; _setUri serverUri ;; _initialize L) raw = Ret tt s ->
  isBinded s = false /\ isCredExist s = false /\ isInitialized s = true /\
  uri s = Some serverUri /\ isPagingCritical s = "T"%char /\ connection s = [].
Proof.
  intros H.
  apply mbind_returns in H. destruct H as ([] & s1 & Hstart & H).
  apply mbind_returns in H. destruct H as ([] & s2 & Huri & H).
  apply _initialize_returns in H.
  destruct (_start_returns raw) as (s1' & E & F). rewrite E in Hstart.
  inversion Hstart; subst s1'. clear Hstart E.
  unfold _setUri, assign in Huri. inversion Huri; subst. cbn.
  decompose [and] F. repeat split; assumption.
Qed.

Lemma invariant_of_prefix (s : ldapReader) (serverUri : string) :
  isBinded s = false /\ isCredExist s = false /\ isInitialized s = true /\
  uri s = Some serverUri /\ isPagingCritical s = "T"%char /\ connection s = [] ->
  session_invariant s.
Proof.
  intros (Hb & Hc & Hi & Hu & Hp & Hconn). unfold session_invariant.
  rewrite Hb, Hc, Hi, Hu, Hp, Hconn. cbn.
  repeat split; eauto; discriminate.
Qed.

Lemma invariant_set_version (s : ldapReader) (v : Z) :
  session_invariant s -> session_invariant (set_version v s).
Proof. unfold session_invariant. cbn. auto. Qed.

Lemma invariant_bind_as (st st' : ldapReader) (user pass : string) (rebind : bool) :
  session_invariant st ->
  state_after (bind_as L user pass rebind st) = Some st' ->
  session_invariant st'.
Proof.
  intros I S.
  destruct (isBinded st && negb rebind) eqn:G.
  - unfold bind_as, mbind at 1, get, throw in S. rewrite G in S.
    cbn in S. inversion S; subst. exact I.
  - assert (Hmay : isBinded st = false \/ rebind = true).
    { destruct (isBinded st), rebind; cbn in G; auto; discriminate. }
    rewrite (bind_as_runs L st user pass rebind Hmay) in S. cbv zeta in S.
    unfold session_invariant in *.
    destruct I as (Hi & Hu & Hp & _ & _ & Hall).
    destruct (_ =? _) in S; cbn in S; inversion S; subst; cbn;
      repeat split; eauto.
Qed.

Lemma invariant_bind (st st' : ldapReader) (rebind : bool) :
  session_invariant st ->
  state_after (bind L rebind st) = Some st' ->
  session_invariant st'.
Proof.
  unfold session_invariant. intros (Hi & Hu & Hp & Hb & Hc & Hall) H.
  run_methods.
  repeat (inner_hyp_match H; try discriminate H).
  all: inversion H; subst; clear H; cbn; repeat split; auto.
  intros _. destruct (isCredExist st); [reflexivity|discriminate].
Qed.

Lemma paged_page_request (st : ldapReader) :
  isPagingCritical st = "T"%char -> paged_request (page_request st).
Proof.
  intros Hp. unfold paged_request, page_request, page_control. cbn.
  rewrite Hp. repeat split. eauto.
Qed.

(** X10.  Every object of a session is initialised, holds its URI, asks for
    paging as critical, holds credentials when it is bound, and has sent
    nothing but critical paged subtree searches. *)
Theorem session_keeps_invariant (st : ldapReader) :
  session L st -> session_invariant st.
Proof.
  induction 1 as
    [raw u st H | raw u v st H | raw u usr pw st H | raw u usr pw v st H
    | st rebind st' _ IH H | st usr pw rebind st' _ IH H | st ps st' _ IH H
    | st f b n va st' _ IH H | st f b st' _ IH H | st st' _ IH H
    | st name st' _ IH H].
  - unfold new_uri in H.
    apply mbind_returns in H. destruct H as ([] & s1 & H1 & H).
    apply mbind_returns in H. destruct H as ([] & s2 & H2 & H).
    apply mbind_returns in H. destruct H as ([] & s3 & H3 & H).
    assert (C : (_start ;; _setUri u ;; _initialize L) raw = Ret tt s3).
    { unfold mbind. rewrite H1, H2. exact H3. }
    apply constructor_prefix, invariant_of_prefix in C.
    apply _setVersion_returns in H. subst st.
    apply invariant_set_version. exact C.
  - unfold new_uri_version in H.
    apply mbind_returns in H. destruct H as ([] & s1 & H1 & H).
    apply mbind_returns in H. destruct H as ([] & s2 & H2 & H).
    apply mbind_returns in H. destruct H as ([] & s3 & H3 & H).
    assert (C : (_start ;; _setUri u ;; _initialize L) raw = Ret tt s3).
    { unfold mbind. rewrite H1, H2. exact H3. }
    apply constructor_prefix, invariant_of_prefix in C.
    destruct (negb (v =? 0)).
    + apply _setVersion_returns in H. subst st.
      apply invariant_set_version. exact C.
    + inversion H; subst. exact C.
  - unfold new_uri_cred in H.
    apply mbind_returns in H. destruct H as ([] & s1 & H1 & H).
    apply mbind_returns in H. destruct H as ([] & s2 & H2 & H).
    apply mbind_returns in H. destruct H as ([] & s3 & H3 & H).
    apply mbind_returns in H. destruct H as ([] & s4 & H4 & H).
    assert (C : (_start ;; _setUri u ;; _initialize L) raw = Ret tt s3).
    { unfold mbind. rewrite H1, H2. exact H3. }
    apply constructor_prefix, invariant_of_prefix in C.
    apply _setVersion_returns in H4. subst s4.
    apply (invariant_bind_as (set_version _DEFAULT_LDAP_VERSION s3) st usr pw false).
    + apply invariant_set_version. exact C.
    + rewrite H. reflexivity.
  - unfold new_uri_cred_version in H.
    apply mbind_returns in H. destruct H as ([] & s1 & H1 & H).
    apply mbind_returns in H. destruct H as ([] & s2 & H2 & H).
    apply mbind_returns in H. destruct H as ([] & s3 & H3 & H).
    apply mbind_returns in H. destruct H as ([] & s4 & H4 & H).
    assert (C : (_start ;; _setUri u ;; _initialize L) raw = Ret tt s3).
    { unfold mbind. rewrite H1, H2. exact H3. }
    apply constructor_prefix, invariant_of_prefix in C.
    apply (invariant_bind_as s4 st usr pw false).
    + destruct (negb (v =? 0)).
      * apply _setVersion_returns in H4. subst s4.
        apply invariant_set_version. exact C.
      * inversion H4; subst. exact C.
    + rewrite H. reflexivity.
  - exact (invariant_bind st st' rebind IH H).
  - exact (invariant_bind_as st st' usr pw rebind IH H).
  - unfold setPageSize, assign in H. cbn in H. inversion H; subst.
    unfold session_invariant in *. cbn. exact IH.
  - destruct (query_keeps_bind_state L _ _ _ _ _ _ H) as (Hb & Hc).
    destruct (query_searches L _ _ _ _ _ _ H)
      as (Hp & Hi & Hu & Hbu & Hbc & _ & Hs).
    unfold session_invariant in *.
    destruct IH as (I1 & I2 & I3 & I4 & I5 & I6).
    rewrite Hb, Hc, Hp, Hi, Hu, Hbu, Hbc. repeat split; auto.
    destruct Hs as [-> | (names & ->)]; [exact I6|].
    constructor; [|exact I6]. apply paged_page_request.
    unfold stored_query. destruct names, (result st); cbn; exact I3.
  - unfold query_all in H.
    destruct (query_keeps_bind_state L _ _ _ _ _ _ H) as (Hb & Hc).
    destruct (query_searches L _ _ _ _ _ _ H)
      as (Hp & Hi & Hu & Hbu & Hbc & _ & Hs).
    unfold session_invariant in *.
    destruct IH as (I1 & I2 & I3 & I4 & I5 & I6).
    rewrite Hb, Hc, Hp, Hi, Hu, Hbu, Hbc. repeat split; auto.
    destruct Hs as [-> | (names & ->)]; [exact I6|].
    constructor; [|exact I6]. apply paged_page_request.
    unfold stored_query. destruct names, (result st); cbn; exact I3.
  - assert (F := fetch_frame L st st' H). unfold same_outside_paging in F.
    destruct F as (Hu & _ & Hbu & Hbc & _ & _ & _ & _ & Hp & Hi & Hb & Hc).
    unfold session_invariant in *.
    destruct IH as (I1 & I2 & I3 & I4 & I5 & I6).
    rewrite Hb, Hc, Hp, Hi, Hu, Hbu, Hbc. repeat split; auto.
    destruct (fetch_calls L st st' H) as [-> | (-> & _)]; [exact I6|].
    cbn [searches]. constructor; [|exact I6].
    apply paged_page_request. exact I3.
  - apply getAttribute_keeps_object in H. subst st'. exact IH.
Qed.
End SessionInvariant.

Lemma pages_for_step (P len : nat) :
  (1 <= P)%nat ->
  pages_for P (S len) = S (pages_for P (len - (P - 1))).
Proof.
  intros HP. unfold pages_for.
  destruct (Nat.le_gt_cases (P - 1) len) as [Hge|Hlt].
  - replace (S len + P - 1)%nat with ((len - (P - 1) + P - 1) + 1 * P)%nat by lia.
    rewrite Nat.div_add by lia. lia.
  - replace (len - (P - 1))%nat with 0%nat by lia.
    replace (S len + P - 1)%nat with (len + 1 * P)%nat by lia.
    rewrite Nat.div_add by lia.
    rewrite (Nat.div_small len P) by lia.
    rewrite (Nat.div_small (0 + P - 1) P) by lia. reflexivity.
Qed.

Section PagedReadRequests.

Variable db : list Entry.
Variable P : nat.
Hypothesis P_positive : (1 <= P)%nat.

(** As [fetch_rest_of_directory], with the searches counted. *)
Lemma fetch_rest_counts_pages (n : nat) :
  forall (later rest : list Entry) (cur : Entry) (st : ldapReader),
    (List.length later <= n)%nat ->
    paging db P st later ->
    entry st = Some (mkRef cur rest) ->
    exists st',
      fetch_times (Stub.directory db) (List.length rest + List.length later) st
        = (repeat true (List.length rest + List.length later), Some st') /\
      fetch (Stub.directory db) st' = Ret false (set_entry None st') /\
      List.length (searches (connection st'))
        = (List.length (searches (connection st))
           + pages_for P (List.length later))%nat.
Proof.
  induction n as [|n IHn]; intros later rest;
    induction rest as [|e rest IHrest]; intros cur st Hlen Hpaging Hent.
  - destruct later; [|cbn in Hlen; lia].
    exists st. split; [reflexivity|].
    destruct Hpaging as (_ & (res & Hres) & _ & Hmore).
    split; [exact (fetch_last (Stub.directory db) st res (mkRef cur []) Hres Hent eq_refl Hmore)|].
    unfold pages_for. cbn [List.length]. rewrite Nat.div_small by lia. lia.
  - assert (Hstep := fetch_within_page db P st later rest cur e Hpaging Hent).
    destruct (IHrest e (set_entry (Some (mkRef e rest)) st) Hlen
                (paging_set_entry db P st later _ Hpaging) eq_refl)
      as (st' & Htimes & Hend & Hcount).
    exists st'. split; [|split; [exact Hend|exact Hcount]].
    cbn [List.length Nat.add fetch_times repeat]. rewrite Hstep, Htimes.
    reflexivity.
  - destruct later as [|l later0].
    + exists st. split; [reflexivity|].
      destruct Hpaging as (_ & (res & Hres) & _ & Hmore).
      split; [exact (fetch_last (Stub.directory db) st res (mkRef cur []) Hres Hent eq_refl Hmore)|].
      unfold pages_for. cbn [List.length]. rewrite Nat.div_small by lia. lia.
    + destruct Hpaging as (Hsize & (res & Hres) & (sent & Hdb & Hcookie) & Hmore).
      destruct (page_arrival db P P_positive (set_entry None st) sent later0 l
                  eq_refl Hsize Hdb (Hcookie ltac:(discriminate)))
        as (st2 & Hq & Hfirst & Hpaging2).
      assert (Hstep : fetch (Stub.directory db) st
                      = Ret true (set_entry (Some (mkRef l (firstn (P - 1) later0))) st2)).
      { rewrite (fetch_next_page (Stub.directory db) st res (mkRef cur []) Hres Hent eq_refl Hmore).
        rewrite Hq. exact Hfirst. }
      assert (Hsent : searches (connection st2)
                      = page_request st :: searches (connection st)).
      { apply _query_returns in Hq.
        destruct Hq as (r & c & rs & count & cookie & _ & _ & _ & _ & ->).
        reflexivity. }
      destruct (IHn (skipn (P - 1) later0) (firstn (P - 1) later0) l
                  (set_entry (Some (mkRef l (firstn (P - 1) later0))) st2))
        as (st' & Htimes & Hend & Hcount).
      * rewrite length_skipn. cbn in Hlen. lia.
      * exact Hpaging2.
      * reflexivity.
      * exists st'. split; [|split; [exact Hend|]].
        -- assert (Hsum : (List.length (firstn (P - 1) later0)
                          + List.length (skipn (P - 1) later0))%nat
                         = List.length later0).
           { rewrite <- length_app, firstn_skipn. reflexivity. }
           rewrite Hsum in Htimes.
           cbn [List.length Nat.add fetch_times repeat]. rewrite Hstep, Htimes.
           reflexivity.
        -- rewrite Hcount. cbn [connection set_entry]. rewrite Hsent.
           cbn [List.length]. rewrite length_skipn.
           rewrite (pages_for_step P (List.length later0) P_positive). lia.
  - assert (Hstep := fetch_within_page db P st later rest cur e Hpaging Hent).
    destruct (IHrest e (set_entry (Some (mkRef e rest)) st) Hlen
                (paging_set_entry db P st later _ Hpaging) eq_refl)
      as (st' & Htimes & Hend & Hcount).
    exists st'. split; [|split; [exact Hend|exact Hcount]].
    cbn [List.length Nat.add fetch_times repeat]. rewrite Hstep, Htimes.
    reflexivity.
Qed.

(** X19.  Reading the paging directory to its end takes one search for each
    page of [P] entries, and one search when the directory is empty. *)
Theorem paged_read_sends_one_search_per_page (st0 st1 : ldapReader)
    (filter base : string) (attrNum : N) (va : list string) :
  entry st0 = None ->
  berval_bytes (pageCookie st0) = [] ->
  pageSize st0 = Z.of_nat P ->
  query (Stub.directory db) filter base attrNum va st0 = Ret tt st1 ->
  exists st',
    fetch_times (Stub.directory db) (List.length db) st1 = (repeat true (List.length db), Some st') /\
    fetch (Stub.directory db) st' = Ret false (set_entry None st') /\
    List.length (searches (connection st'))
      = (List.length (searches (connection st0))
         + Nat.max 1 (pages_for P (List.length db)))%nat.
Proof.
  intros Hent Hcookie Hsize Hq.
  apply query_returns in Hq.
  destruct Hq as (names & _ & _ & Hpage).
  destruct (stored_query_keeps st0 filter base names)
    as (Hent0 & Hcookie0 & Hsize0 & _ & _ & _ & _ & Hsent0).
  cbn zeta in Hent0, Hcookie0, Hsize0, Hsent0.
  rewrite Hent in Hent0. rewrite Hsize in Hsize0.
  assert (Hsent1 : searches (connection st1)
                   = page_request (stored_query filter base names st0)
                     :: searches (connection st0)).
  { assert (E := Hpage). apply _query_returns in E.
    destruct E as (r & c & rs & count & cookie & _ & _ & _ & _ & ->).
    cbn. rewrite Hsent0. reflexivity. }
  assert (Hcases : db = [] \/ exists l later0, db = l :: later0)
    by (destruct db; eauto).
  destruct Hcases as [Hdb | (l & later0 & Hdb)].
  - exists st1.
    replace (List.length db) with 0%nat by (rewrite Hdb; reflexivity).
    split; [reflexivity|].
    assert (E := Hpage). apply _query_returns in E.
    destruct E as (res & c & rest & count & cookie & Hsearch & _ & _ & _ & Hst1).
    assert (Hres : res = Stub.response [] 0 []).
    { unfold Stub.directory, page_request, Stub.paged_search in Hsearch.
      cbn in Hsearch. rewrite Hdb in Hsearch.
      rewrite skipn_nil, firstn_nil in Hsearch. cbn in Hsearch.
      inversion Hsearch; reflexivity. }
    split.
    + rewrite (fetch_first (Stub.directory db) st1 res).
      * rewrite Hres. reflexivity.
      * rewrite Hst1. reflexivity.
      * rewrite (_query_keeps_entry (Stub.directory db) _ _ Hpage). exact Hent0.
    + rewrite Hsent1. unfold pages_for. cbn [List.length].
      rewrite Nat.div_small by lia. cbn. lia.
  - destruct (page_arrival db P P_positive (stored_query filter base names st0)
                [] later0 l Hent0 Hsize0 Hdb)
      as (st2 & Hq2 & Hfirst & Hpaging).
    { rewrite Hcookie0. exact Hcookie. }
    rewrite Hpage in Hq2. inversion Hq2; subst st2.
    destruct (fetch_rest_counts_pages (List.length (skipn (P - 1) later0))
                (skipn (P - 1) later0) (firstn (P - 1) later0) l
                (set_entry (Some (mkRef l (firstn (P - 1) later0))) st1)
                (le_n _) Hpaging eq_refl)
      as (st' & Htimes & Hend & Hcount).
    exists st'. split; [|split; [exact Hend|]].
    + assert (Hsum : (List.length (firstn (P - 1) later0)
                      + List.length (skipn (P - 1) later0))%nat
                     = List.length later0).
      { rewrite <- length_app, firstn_skipn. reflexivity. }
      rewrite Hsum in Htimes.
      replace (List.length db) with (S (List.length later0))
        by (rewrite Hdb; reflexivity).
      cbn [fetch_times repeat]. rewrite Hfirst, Htimes. reflexivity.
    + rewrite Hcount. cbn [connection set_entry]. rewrite Hsent1.
      cbn [List.length]. rewrite length_skipn.
      replace (List.length db) with (S (List.length later0))
        by (rewrite Hdb; reflexivity).
      rewrite (pages_for_step P (List.length later0) P_positive). lia.
Qed.

End PagedReadRequests.

Lemma bind_as_outcome_witness :
  exists st',
    state_after (bind_as Stub.lib "cn=admin,dc=example,dc=org" "" false Stub.connected)
      = Some st' /\
    bindUser st' = Some "cn=admin,dc=example,dc=org" /\
    isCredExist st' = true /\
    isBinded st' = isBinded Stub.connected.
Proof.
  destruct (bind_as_outcome Stub.lib Stub.connected "cn=admin,dc=example,dc=org"
              "" false (or_introl eq_refl))
    as (st' & Hafter & Huser & _ & Hcred & _ & _ & _ & Hrejected).
  destruct (Hrejected ltac:(vm_compute; discriminate)) as (_ & Hbound & _).
  exists st'. auto.
Defined.

Lemma session_keeps_invariant_witness : session_invariant Stub.bound.
Proof. exact (session_keeps_invariant Stub.lib Stub.bound bound_session). Defined.

Lemma query_reads_announced_names_witness :
  query Stub.lib Stub.filter Stub.base 3 ["sAMAccountName"; "memberOf"] Stub.bound
    = Undefined.
Proof.
  destruct (query_reads_announced_names Stub.lib Stub.bound Stub.filter Stub.base
              3%N ["sAMAccountName"; "memberOf"] eq_refl
              ltac:(vm_compute; discriminate))
    as [(_ & H)|(Hlen & _)].
  - exact H.
  - cbn in Hlen. lia.
Defined.

Lemma scenario_sized_query :
  state_after ((setPageSize 2 ;;
                query Stub.lib Stub.filter Stub.base 1 ["sAMAccountName"])
                 Stub.connected)
    = Some Stub.queried.
Proof. vm_compute. reflexivity. Qed.

Lemma page_size_reaches_request_witness :
  pageSize Stub.queried = 2 /\
  (searches (connection Stub.queried) = searches (connection Stub.connected) \/
   exists rq,
     searches (connection Stub.queried)
       = rq :: searches (connection Stub.connected) /\
     rq_serverctrls rq
       = Some [mkControl LDAP_CONTROL_PAGEDRESULTS
                 (Some (2, berval_bytes (pageCookie Stub.connected)))
                 (isPagingCritical Stub.connected)]).
Proof.
  exact (page_size_reaches_request Stub.lib Stub.connected Stub.queried 2
           Stub.filter Stub.base 1%N ["sAMAccountName"] scenario_sized_query).
Defined.

Lemma query_all_search_failure_witness :
  exists st',
    query_all Stub.refusing Stub.filter Stub.base Stub.sized
      = Throw (ldap_err2string Stub.refusing 32) st' /\
    result st' = None.
Proof.
  destruct (query_all_search_failure Stub.refusing Stub.sized Stub.filter Stub.base
              32 None eq_refl eq_refl ltac:(discriminate))
    as (st' & Hthrow & Hres & _).
  exists st'. auto.
Defined.

Lemma scenario_result :
  result Stub.queried
    = Some (Stub.response [Stub.alice; Stub.bob] 3 (Stub.cookie_at 2)).
Proof. vm_compute. reflexivity. Qed.

Lemma query_all_control_failure_witness :
  exists st' h',
    query_checked Stub.unencodable Stub.filter Stub.base 0 [] Stub.queried intact
      = (Throw (ldap_err2string Stub.unencodable (-3)) st', h') /\
    result st' = Some (Stub.response [Stub.alice; Stub.bob] 3 (Stub.cookie_at 2)) /\
    connection st'
      = call_memfree (Stub.response [Stub.alice; Stub.bob] 3 (Stub.cookie_at 2))
        :: connection Stub.queried /\
    fetch_checked Stub.unencodable st' h' = (Undefined, h') /\
    query_checked Stub.unencodable Stub.filter Stub.base 0 [] st' h'
      = (Undefined, h').
Proof.
  destruct (query_all_control_failure Stub.unencodable Stub.queried intact
              Stub.filter Stub.base
              (Stub.response [Stub.alice; Stub.bob] 3 (Stub.cookie_at 2))
              (-3) scenario_result eq_refl eq_refl ltac:(discriminate))
    as (st' & h' & _ & Hconn & Hres & _ & Hq & _ & Hfetch & Hagain).
  exists st', h'.
  split; [exact Hq|]. split; [exact Hres|]. split; [exact Hconn|].
  split; [exact (Hfetch eq_refl)|exact (Hagain Stub.filter Stub.base)].
Defined.

Lemma query_all_reads_first_control_witness :
  query_all Stub.unpaged Stub.filter Stub.base Stub.connected = Undefined.
Proof.
  exact (query_all_reads_first_control Stub.unpaged Stub.connected Stub.filter
           Stub.base (mkMessage Stub.three_users LDAP_SUCCESS None)
           eq_refl eq_refl eq_refl).
Defined.

Lemma scenario_second : fetch Stub.lib Stub.positioned = Ret true Stub.at_second.
Proof. vm_compute. reflexivity. Qed.

Lemma scenario_third : fetch Stub.lib Stub.at_second = Ret true Stub.at_last.
Proof. vm_compute. reflexivity. Qed.

Lemma fetched_requests_repeat_query_witness :
  exists pages,
    connection Stub.at_last = map call_search pages ++ connection Stub.queried /\
    Forall (fun rq =>
              rq_base rq = searchBase Stub.queried /\
              rq_filter rq = searchFilter Stub.queried /\
              rq_attrs rq = requestedAttributes Stub.queried /\
              rq_scope rq = LDAP_SCOPE_SUBTREE /\
              rq_sizelimit rq = LDAP_NO_LIMIT /\
              exists cookie,
                rq_serverctrls rq
                  = Some [mkControl LDAP_CONTROL_PAGEDRESULTS
                            (Some (pageSize Stub.queried, cookie))
                            (isPagingCritical Stub.queried)])
           pages.
Proof.
  exact (fetched_requests_repeat_query Stub.lib Stub.queried Stub.at_last
           (fetched_more Stub.lib Stub.queried true Stub.positioned Stub.at_last
              scenario_fetch
              (fetched_more Stub.lib Stub.positioned true Stub.at_second Stub.at_last
                 scenario_second
                 (fetched_more Stub.lib Stub.at_second true Stub.at_last Stub.at_last
                    scenario_third (fetched_none Stub.lib Stub.at_last))))).
Defined.

Lemma scenario_empty :
  result Stub.empty_queried = Some (Stub.response [] 0 []) /\
  entry Stub.empty_queried = None.
Proof. split; vm_compute; reflexivity. Qed.

Lemma fetch_stuck_on_empty_page_witness :
  exists st',
    fetch_times (Stub.directory []) 3 Stub.empty_queried
      = (repeat false 3, Some st') /\
    connection st' = connection Stub.empty_queried.
Proof.
  destruct (fetch_stuck_on_empty_page (Stub.directory []) Stub.empty_queried
              (Stub.response [] 0 []) 3 (proj1 scenario_empty) eq_refl
              (proj2 scenario_empty))
    as (st' & Htimes & Hconn & _).
  exists st'. auto.
Defined.

Lemma scenario_gap :
  result Stub.gap_positioned = Some (Stub.response [Stub.alice] 2 (Stub.cookie_at 1)) /\
  entry Stub.gap_positioned = Some (mkRef Stub.alice []) /\
  isMorePageAvailable Stub.gap_positioned = true /\
  _query Stub.gap_directory (set_entry None Stub.gap_positioned)
    = Ret tt Stub.gap_next /\
  result Stub.gap_next = Some (Stub.response [] 2 (Stub.cookie_at 2)) /\
  isMorePageAvailable Stub.gap_next = true.
Proof. repeat split; vm_compute; reflexivity. Qed.

Lemma fetch_false_on_empty_next_page_witness :
  fetch Stub.gap_directory Stub.gap_positioned
    = Ret false (set_entry None Stub.gap_next) /\
  isMorePageAvailable Stub.gap_next = true.
Proof.
  destruct scenario_gap as (Hres & Hent & Hmore & Hq & Hres2 & Hmore2).
  split; [|exact Hmore2].
  exact (proj1 (fetch_false_on_empty_next_page Stub.gap_directory
                  Stub.gap_positioned Stub.gap_next
                  (Stub.response [Stub.alice] 2 (Stub.cookie_at 1))
                  (Stub.response [] 2 (Stub.cookie_at 2))
                  (mkRef Stub.alice []) Hres Hent eq_refl Hmore Hq Hres2 eq_refl)).
Defined.

Lemma paged_read_sends_one_search_per_page_witness :
  exists st',
    fetch_times (Stub.directory Stub.three_users) (List.length Stub.three_users)
      Stub.queried
      = (repeat true (List.length Stub.three_users), Some st') /\
    fetch (Stub.directory Stub.three_users) st' = Ret false (set_entry None st') /\
    List.length (searches (connection st'))
      = (List.length (searches (connection Stub.sized))
         + Nat.max 1 (pages_for 2 (List.length Stub.three_users)))%nat.
Proof.
  exact (paged_read_sends_one_search_per_page Stub.three_users 2
           (le_S 1 1 (le_n 1)) Stub.sized Stub.queried Stub.filter Stub.base
           1%N ["sAMAccountName"] eq_refl eq_refl eq_refl scenario_query).
Defined.

(** ** What no call undoes *)

Section Flags.

Variable L : LdapLibrary.

(** X20.  No call of a public member function clears the bound flag or the
    stored credentials, or touches the initialised flag: an object that is
    bound stays bound through every later call, a rejected rebind
    included. *)
Theorem flags_only_rise (c : Call) (st st' : ldapReader) :
  after_call L c st = Some st' ->
  (isBinded st = true -> isBinded st' = true) /\
  (isCredExist st = true -> isCredExist st' = true) /\
  isInitialized st' = isInitialized st.
Proof.
  destruct c as [rebind|user pass rebind|ps|f b n va|f b| |name];
    cbn [after_call]; intros H.
  - run_methods.
    repeat (inner_hyp_match H; try discriminate H).
    all: inversion H; subst; clear H; cbn; auto.
  - run_methods.
    repeat (inner_hyp_match H; try discriminate H).
    all: inversion H; subst; clear H; cbn; auto.
  - unfold setPageSize, assign in H. cbn in H. inversion H; subst. cbn. auto.
  - destruct (query_keeps_bind_state L _ _ _ _ _ _ H) as (-> & ->).
    destruct (query_searches L _ _ _ _ _ _ H) as (_ & -> & _). auto.
  - unfold query_all in H.
    destruct (query_keeps_bind_state L _ _ _ _ _ _ H) as (-> & ->).
    destruct (query_searches L _ _ _ _ _ _ H) as (_ & -> & _). auto.
  - assert (F := fetch_frame L st st' H). unfold same_outside_paging in F.
    destruct F as (_ & _ & _ & _ & _ & _ & _ & _ & _ & -> & -> & ->). auto.
  - apply getAttribute_keeps_object in H. subst st'. auto.
Qed.

(** X21.  The example program.  When the constructor throws, the program
    writes the message to [cerr] and exits with -1.  When the constructor
    returns, the query announces three names and passes two, so the third
    read of the argument list has nothing to read: from there on the
    program has no defined behaviour, whatever the server holds. *)
Theorem main_outcome (raw : ldapReader) :
  match new_uri_cred L Main.serverUri Main.user Main.pass raw with
  | Throw what _ => Main.main L raw = Main.Exit (-1) [what] []
  | Ret _ _ => Main.main L raw = Main.NoBehaviour
  | Undefined => False
  end.
Proof.
  unfold Main.main. unfold mbind at 1 2.
  assert (C := credential_constructor_defined L raw Main.serverUri Main.user
                 Main.pass _DEFAULT_LDAP_VERSION).
  change (new_uri_cred_version L Main.serverUri Main.user Main.pass
            _DEFAULT_LDAP_VERSION raw)
    with (new_uri_cred L Main.serverUri Main.user Main.pass raw) in C.
  destruct (new_uri_cred L Main.serverUri Main.user Main.pass raw)
    as [[] reader1|what s|]; [|reflexivity|exact (C eq_refl)].
  assert (Hq : query L Main.filter Main.base 3 ["sAMAccountName"; "memberOf"] reader1
               = Undefined).
  { unfold query, mbind, assign, get, ret, throw, undefined. reflexivity. }
  rewrite Hq. reflexivity.
Qed.

End Flags.

Lemma flags_only_rise_witness :
  exists st',
    after_call Stub.lib (call_bind_as "cn=admin,dc=example,dc=org" "" true)
      Stub.bound = Some st' /\
    isBinded st' = true.
Proof.
  eexists. split; [vm_compute; reflexivity|].
  refine (proj1 (flags_only_rise Stub.lib
                   (call_bind_as "cn=admin,dc=example,dc=org" "" true)
                   Stub.bound _ _) _); [vm_compute; reflexivity|vm_compute; reflexivity].
Defined.
